(** * Personal notes application: the storage adapter and the note repository

    A shallow embedding of [storage.service.ts] (StorageService) and
    [notes.service.ts] (NotesService), and the properties of the two
    services that the specification states.

    Conventions.
    - A JavaScript string is a [string]; a character stands for the UTF-16
      code unit of the same number, so the model covers the strings over
      U+0000..U+00FF.
    - The in-memory array of notes is a [list]; an index is a [nat].
    - What the runtime supplies and the services do not define (JSON,
      Date, the clock, the random source, [localStorage]) is a parameter:
      the functions in the class [Platform], the clock and random readings
      passed to the operations, and the [World] the operations run in.
    - An operation that can throw returns [exn + A]; [try]/[catch] is
      [try_catch]. *)

From Stdlib Require Import ZArith Ascii String List Sorted Permutation Lia.
From Stdlib Require Import DecimalString DecimalZ.
From stdpp Require Import base option list strings gmap.

Local Open Scope Z_scope.
Set Warnings "-register-all".

(** ** JavaScript strings *)

Module JsString.

(** [String.prototype.toLowerCase] on one code unit below U+0100: the
    letters A-Z and the Latin-1 capitals U+00C0..U+00DE (U+00D7, the
    multiplication sign, is not a letter) move up by 32. *)
Definition lower_char (c : ascii) : ascii :=
  let n := N_of_ascii c in
  if ((65 <=? n) && (n <=? 90) || (192 <=? n) && (n <=? 222) && negb (n =? 215))%N
  then ascii_of_N (n + 32)
  else c.

Fixpoint toLowerCase (s : string) : string :=
  match s with
  | EmptyString => EmptyString
  | String c s' => String (lower_char c) (toLowerCase s')
  end.

(** WhiteSpace and LineTerminator code units below U+0100, the ones
    [String.prototype.trim] strips: TAB, LF, VT, FF, CR, SP, NBSP. *)
Definition is_ws (c : ascii) : bool :=
  let n := N_of_ascii c in
  ((9 <=? n) && (n <=? 13) || (n =? 32) || (n =? 160))%N.

Fixpoint trimStart (s : string) : string :=
  match s with
  | EmptyString => EmptyString
  | String c s' => if is_ws c then trimStart s' else s
  end.

Fixpoint trimEnd (s : string) : string :=
  match s with
  | EmptyString => EmptyString
  | String c s' =>
      match trimEnd s' with
      | EmptyString => if is_ws c then EmptyString else String c EmptyString
      | t => String c t
      end
  end.

Definition trim (s : string) : string := trimEnd (trimStart s).

Fixpoint startsWith (s q : string) {struct q} : bool :=
  match q, s with
  | EmptyString, _ => true
  | String _ _, EmptyString => false
  | String b q', String a s' => bool_decide (a = b) && startsWith s' q'
  end.

(** [s.includes(q)]: [q] occurs in [s] at some position. *)
Fixpoint includes (s q : string) : bool :=
  startsWith s q ||
  match s with
  | EmptyString => false
  | String _ s' => includes s' q
  end.

(** Truthiness of a string: every string but the empty one. *)
Definition truthy (s : string) : bool := negb (bool_decide (s = "")).

(** [a || b] on strings. *)
Definition or_else (a b : string) : string := if truthy a then a else b.

(** What the specification calls a substring. *)
Definition substring_of (q s : string) : Prop :=
  exists pre post, s = pre +:+ q +:+ post.

Definition all_ws (s : string) : Prop :=
  Forall (fun c => is_ws c = true) (list_ascii_of_string s).

End JsString.
Import JsString.

(** ** Values decoded from JSON *)

(** A value that [JSON.parse] can return. [JNum] carries an integer: the
    model covers the integer-valued numbers of the safe range, whose
    [String(..)] is their decimal notation. The entries of [JObj] are
    property definitions in source order, a later one overriding an
    earlier one with the same key, as [JSON.parse] has it. *)
Inductive json : Type :=
| JNull
| JBool (b : bool)
| JNum (z : Z)
| JStr (s : string)
| JArr (elements : list json)
| JObj (entries : list (string * json)).

Module Json.

(** [x.k]: [None] is [undefined]. Only objects own the keys that the
    services read; an array has none of them. *)
Definition prop (k : string) (x : json) : option json :=
  match x with
  | JObj entries =>
      fold_left (fun acc e => if bool_decide (fst e = k) then Some (snd e) else acc)
                entries None
  | _ => None
  end.

(** [!!v] *)
Definition truthy (v : json) : bool :=
  match v with
  | JNull => false
  | JBool b => b
  | JNum z => negb (z =? 0)
  | JStr s => JsString.truthy s
  | JArr _ | JObj _ => true
  end.

Definition truthy_prop (o : option json) : bool :=
  match o with
  | None => false
  | Some v => truthy v
  end.

Definition decimal (z : Z) : string := NilZero.string_of_int (Z.to_int z).

Fixpoint join (sep : string) (l : list string) : string :=
  match l with
  | [] => ""
  | [s] => s
  | s :: l' => s +:+ sep +:+ join sep l'
  end.

(** [String(v)] for the values that the text of a note's field decodes
    to. A number is an integer and prints in decimal. An object prints
    as "[object Object]": a decoded object whose own [toString] and
    [valueOf] are not functions, for which [String] throws, is outside
    the model. *)
Fixpoint String_ (v : json) : string :=
  match v with
  | JNull => "null"
  | JBool true => "true"
  | JBool false => "false"
  | JNum z => decimal z
  | JStr s => s
  | JArr l => join "," (map (fun x => match x with JNull => "" | _ => String_ x end) l)
  | JObj _ => "[object Object]"
  end.

(** [typeof x === 'object'] for a value that is not [null]. *)
Definition is_object (x : json) : bool :=
  match x with
  | JArr _ | JObj _ => true
  | _ => false
  end.

End Json.

(** ** Notes *)

(** Modelled from the spec: [models/note.model.ts], the declaration of the
    interface [Note], is not among the sources. The fields are the six
    that section 3 of the specification lists and that the two services
    read and write, every one of them present. *)
Module Note.
Record t : Type := mk {
  id : string;
  title : string;
  content : string;
  tags : list string;
  createdAt : string;
  updatedAt : string;
}.
End Note.
Abbreviation Note := Note.t.

(** The object that [JSON.stringify] is given for a note. (The order of
    the keys of the JavaScript object depends on the operation that built
    it; no property below depends on that order.) *)
Definition encode_note (n : Note) : json :=
  JObj [("id", JStr (Note.id n)); ("title", JStr (Note.title n));
        ("content", JStr (Note.content n)); ("tags", JArr (map JStr (Note.tags n)));
        ("createdAt", JStr (Note.createdAt n)); ("updatedAt", JStr (Note.updatedAt n))].

Definition encode_notes (l : list Note) : json := JArr (map encode_note l).

(** ** Exceptions, and computations that can throw *)

Record exn : Type := Thrown { exn_name : string; exn_message : string }.

Definition M (S A : Type) : Type := S -> (exn + A) * S.

Definition ret {S A} (a : A) : M S A := fun s => (inr a, s).
Definition throw {S A} (e : exn) : M S A := fun s => (inl e, s).
Definition bind {S A B} (m : M S A) (k : A -> M S B) : M S B :=
  fun s => match m s with
           | (inr a, s') => k a s'
           | (inl e, s') => (inl e, s')
           end.
(** [try { m } catch { h }]: what [m] changed before it threw stays changed. *)
Definition try_catch {S A} (m : M S A) (h : exn -> M S A) : M S A :=
  fun s => match m s with
           | (inl e, s') => h e s'
           | r => r
           end.
(** A pure platform call that returns or throws. *)
Definition call {S A} (r : exn + A) : M S A := fun s => (r, s).

Notation "x <- m ;; k" := (bind m (fun x => k))
  (at level 100, m at next level, right associativity).
Notation "m ;;; k" := (bind m (fun _ => k))
  (at level 100, right associativity).

(** ** The runtime *)

Class Platform : Type := {
  (** [JSON.parse]; [inl]: it throws a SyntaxError *)
  JSON_parse : string -> exn + json;
  (** [JSON.stringify] *)
  JSON_stringify : json -> exn + string;
  (** [Date.parse], in milliseconds since the epoch; [None] is [NaN] *)
  Date_parse : string -> option Z;
  (** [new Date(t).toISOString()] *)
  toISOString : Z -> string;
}.

Inductive event : Type :=
| GetItem (key : string)
| SetItem (key value : string)
| RemoveItem (key : string).

(** The object behind [globalThis.localStorage]. *)
Record Storage : Type := {
  items : gmap string string;
  has_getItem : bool;      (** [typeof ls.getItem === 'function'] *)
  has_setItem : bool;
  has_removeItem : bool;
  failing : bool;          (** every call throws (access denied) *)
  quota : option nat;      (** [setItem] throws for a longer value *)
  calls : list event;      (** the calls made so far, latest first *)
}.

Inductive LocalStorage : Type :=
| Getter_throws            (** reading [globalThis.localStorage] throws *)
| Absent                   (** [undefined] or [null] *)
| Present (ls : Storage).

Inductive World : Type :=
| NoGlobalThis             (** [typeof globalThis === 'undefined'] *)
| GlobalThis (localStorage : LocalStorage).

Definition TypeError : exn := Thrown "TypeError" "not a function".
Definition SecurityError : exn := Thrown "SecurityError" "access denied".
Definition QuotaExceededError : exn := Thrown "QuotaExceededError" "quota exceeded".

Definition logged (e : event) (ls : Storage) : Storage :=
  {| items := items ls; has_getItem := has_getItem ls; has_setItem := has_setItem ls;
     has_removeItem := has_removeItem ls; failing := failing ls; quota := quota ls;
     calls := e :: calls ls |}.

Definition with_items (m : gmap string string) (ls : Storage) : Storage :=
  {| items := m; has_getItem := has_getItem ls; has_setItem := has_setItem ls;
     has_removeItem := has_removeItem ls; failing := failing ls; quota := quota ls;
     calls := calls ls |}.

Definition over_quota (value : string) (ls : Storage) : bool :=
  match quota ls with
  | Some q => (q <? String.length value)%nat
  | None => false
  end.

(** [ls.getItem(key)] *)
Definition getItem (key : string) : M World (option string) := fun w =>
  match w with
  | GlobalThis (Present ls) =>
      if negb (has_getItem ls) then (inl TypeError, w)
      else
        let w' := GlobalThis (Present (logged (GetItem key) ls)) in
        if failing ls then (inl SecurityError, w') else (inr (items ls !! key), w')
  | _ => (inl TypeError, w)
  end.

(** [ls.setItem(key, value)] *)
Definition setItem (key value : string) : M World unit := fun w =>
  match w with
  | GlobalThis (Present ls) =>
      if negb (has_setItem ls) then (inl TypeError, w)
      else
        let ls' := logged (SetItem key value) ls in
        if failing ls then (inl SecurityError, GlobalThis (Present ls'))
        else if over_quota value ls then (inl QuotaExceededError, GlobalThis (Present ls'))
        else (inr tt, GlobalThis (Present (with_items (<[key := value]> (items ls)) ls')))
  | _ => (inl TypeError, w)
  end.

(** [ls.removeItem(key)] *)
Definition removeItem (key : string) : M World unit := fun w =>
  match w with
  | GlobalThis (Present ls) =>
      if negb (has_removeItem ls) then (inl TypeError, w)
      else
        let ls' := logged (RemoveItem key) ls in
        if failing ls then (inl SecurityError, GlobalThis (Present ls'))
        else (inr tt, GlobalThis (Present (with_items (delete key (items ls)) ls')))
  | _ => (inl TypeError, w)
  end.

(** ** storage.service.ts *)

Module StorageService.
Section WithPlatform.
Context `{Platform}.

Definition NOTES_KEY : string := "notes.v1".

(** The getter [storage]: [true] when it returns [g.localStorage],
    [false] when it returns [null]. *)
Definition storage : M World bool :=
  try_catch
    (fun w =>
       match w with
       | NoGlobalThis => (inr false, w)                  (* if (!g) return null *)
       | GlobalThis Getter_throws => (inl SecurityError, w)
       | GlobalThis Absent => (inr false, w)             (* if (!ls) return null *)
       | GlobalThis (Present ls) =>
           if negb (has_getItem ls) || negb (has_setItem ls)
           then (inr false, w)
           else (inr true, w)
       end)
    (fun _ => ret false).

Definition read (key : string) : M World json :=
  try_catch
    (s <- storage ;;
     if negb s then ret JNull
     else
       raw <- getItem key ;;
       match raw with
       | None => ret JNull                               (* raw == null *)
       | Some raw => try_catch (call (JSON_parse raw)) (fun _ => ret JNull)
       end)
    (fun _ => ret JNull).

Definition write (key : string) (value : json) : M World unit :=
  try_catch
    (s <- storage ;;
     if negb s then ret tt
     else
       payload <- call (JSON_stringify value) ;;
       setItem key payload)
    (fun _ => ret tt).

Definition remove (key : string) : M World unit :=
  try_catch
    (s <- storage ;;
     if negb s then ret tt else removeItem key)
    (fun _ => ret tt).

End WithPlatform.
End StorageService.

(** ** Arrays *)

Module Array.
Section WithElements.
Context {A : Type}.

(** [Array.prototype.sort(compareFn)] for a comparator into the numbers,
    [None] standing for [NaN], which [sort] takes for [+0]. A positive
    result puts the first argument after the second. The sort is stable
    (ECMAScript 2019); it is written as an insertion sort, which is what
    every conforming sort computes when the comparator is consistent.
    When it is not (a [NaN] among the results) the order is left to the
    implementation, and this is one of the orders it may give: only that
    the result is a permutation of the array holds of every engine
    then. *)
Section Sort.
Variable compareFn : A -> A -> option Z.

Definition sorts_after (a b : A) : bool :=
  match compareFn a b with
  | Some v => 0 <? v
  | None => false
  end.

Fixpoint insert (a : A) (l : list A) : list A :=
  match l with
  | [] => [a]
  | b :: l' => if sorts_after a b then b :: insert a l' else a :: l
  end.

Fixpoint sort (l : list A) : list A :=
  match l with
  | [] => []
  | a :: l' => insert a (sort l')
  end.
End Sort.

(** [findIndex]; [None] is [-1]. *)
Fixpoint findIndex (p : A -> bool) (l : list A) : option nat :=
  match l with
  | [] => None
  | a :: l' => if p a then Some 0%nat else S <$> findIndex p l'
  end.

End WithElements.
End Array.

(** ** notes.service.ts *)

(** One reading of the clock and of the random source, as [generateId]
    takes them: [Date.now()] and the characters
    [Math.random().toString(36).slice(2, 8)]. *)
Record Entropy : Type := { clock : Z; random36 : string }.

(** The argument of [createNote]: [content] and [tags] are optional. *)
Record Payload : Type := {
  payload_title : string;
  payload_content : option string;
  payload_tags : option (list string);
}.

(** The service's array [notes], and the world its storage adapter
    reaches. *)
Record State : Type := { notes : list Note; world : World }.

Definition liftW {A} (m : M World A) : M State A := fun s =>
  let (r, w') := m (world s) in (r, {| notes := notes s; world := w' |}).
Definition get_notes : M State (list Note) := fun s => (inr (notes s), s).
Definition set_notes (l : list Note) : M State unit := fun s =>
  (inr tt, {| notes := l; world := world s |}).

Module NotesService.
Section WithPlatform.
Context `{Platform}.
Import Note.

Definition storageKey : string := StorageService.NOTES_KEY.

Definition persist : M State unit :=
  l <- get_notes ;;
  liftW (StorageService.write storageKey (encode_notes l)).

(** [Date.parse(a.updatedAt || a.createdAt || 0)]; [Date.parse] turns
    its argument into a string, so [0] is read as ["0"]. *)
Definition sortKey (a : Note) : option Z :=
  Date_parse (or_else (updatedAt a) (or_else (createdAt a) "0")).

(** [tb - ta], [NaN] when either is. The time values are integers below
    2^53 in magnitude, so the floating-point difference has the sign of
    the exact one. *)
Definition compareFn (a b : Note) : option Z :=
  match sortKey a, sortKey b with
  | Some ta, Some tb => Some (tb - ta)
  | _, _ => None
  end.

Definition sortDescByUpdatedAt (l : list Note) : list Note :=
  Array.sort compareFn l.

Definition sanitizeNote (x : json) : option Note :=
  if negb (Json.truthy x) || negb (Json.is_object x) then None
  else if negb (Json.truthy_prop (Json.prop "id" x))
          || negb (Json.truthy_prop (Json.prop "title" x))
          || negb (Json.truthy_prop (Json.prop "createdAt" x))
          || negb (Json.truthy_prop (Json.prop "updatedAt" x)) then None
  else
    let str k := from_option Json.String_ "undefined" (Json.prop k x) in
    Some {| id := str "id";
            title := str "title";
            content := match Json.prop "content" x with
                       | Some (JStr s) => s
                       | _ => ""
                       end;
            createdAt := str "createdAt";
            updatedAt := str "updatedAt";
            tags := match Json.prop "tags" x with
                    | Some (JArr ts) => map Json.String_ ts
                    | _ => []
                    end |}.

(** [items.map(..).filter((x) => !!x)]: [omap] keeps the notes and drops
    the [null]s. *)
Definition sanitizeNotes (items : json) : list Note :=
  match items with
  | JArr xs => omap sanitizeNote xs
  | _ => []
  end.

Definition generateId (e : Entropy) : string :=
  Json.decimal (clock e) +:+ "-" +:+ random36 e.

Definition seedNotes (now : Z) (e1 e2 : Entropy) : list Note :=
  let note1Time := toISOString (now - 1000 * 60 * 60) in
  let note2Time := toISOString (now - 1000 * 60 * 10) in
  let sample :=
    [ {| id := generateId e1;
         title := "Welcome to Notes";
         content := "This is your first note. Use the app to create, edit, search, and delete notes. Your notes are stored locally in your browser.";
         createdAt := note1Time;
         updatedAt := note1Time;
         tags := ["welcome"; "getting-started"] |};
      {| id := generateId e2;
         title := "Tips";
         content := "Use the search to quickly find notes by title, content, or tags. Notes are sorted by most recently updated.";
         createdAt := note2Time;
         updatedAt := note2Time;
         tags := ["tips"; "productivity"] |} ] in
  sortDescByUpdatedAt sample.

(** The constructor body; [notes] starts as [[]]. [now], [e1] and [e2]
    are what [seedNotes] reads from the clock and the random source. *)
Definition constructor (now : Z) (e1 e2 : Entropy) : M State unit :=
  stored <- liftW (StorageService.read storageKey) ;;
  match stored with
  | JArr (_ :: _) => set_notes (sortDescByUpdatedAt (sanitizeNotes stored))
  | _ => set_notes (seedNotes now e1 e2) ;;; persist
  end.

Definition new (now : Z) (e1 e2 : Entropy) (w : World) : (exn + unit) * State :=
  constructor now e1 e2 {| notes := []; world := w |}.

(** The filter of [listNotes]. A [Note] has a title, a content and an
    array of tags, so [?? ''] and [Array.isArray] change nothing. *)
Definition matches (q : string) (n : Note) : bool :=
  let inTitle := includes (toLowerCase (title n)) q in
  let inContent := includes (toLowerCase (content n)) q in
  let inTags := existsb (fun t => includes (toLowerCase t) q) (tags n) in
  inTitle || inContent || inTags.

(** [listNotes(query?)]; it sorts a copy and leaves the state as it is. *)
Definition listNotes (query : option string) (s : State) : list Note :=
  let l := sortDescByUpdatedAt (notes s) in
  match query with
  | None => l
  | Some query =>
      if negb (truthy query) then l
      else
        let q := trim (toLowerCase query) in
        if negb (truthy q) then l
        else List.filter (matches q) l
  end.

(** [getNote(id)]; [None] is [undefined]. *)
Definition getNote (i : string) (s : State) : option Note :=
  find (fun n => bool_decide (id n = i)) (notes s).

Definition createNote (now : Z) (e : Entropy) (payload : Payload) : M State Note :=
  let now := toISOString now in
  let note := {| id := generateId e;
                 title := payload_title payload;
                 content := default "" (payload_content payload);
                 tags := default [] (payload_tags payload);
                 createdAt := now;
                 updatedAt := now |} in
  l <- get_notes ;;
  set_notes (sortDescByUpdatedAt (note :: l)) ;;;
  persist ;;;
  ret note.

(** [{ ...a, ...b }]: a [Note] has all six keys, so each of them comes
    from [b]; with no [a], the keys of [b] alone. *)
Definition spread (a : option Note) (b : Note) : Note :=
  {| id := id b; title := title b; content := content b; tags := tags b;
     createdAt := createdAt b; updatedAt := updatedAt b |}.

Definition with_updatedAt (t : string) (n : Note) : Note :=
  {| id := id n; title := title n; content := content n; tags := tags n;
     createdAt := createdAt n; updatedAt := t |}.

Definition updateNote (now : Z) (note : Note) : M State Note :=
  l <- get_notes ;;
  match Array.findIndex (fun n => bool_decide (id n = id note)) l with
  | None => throw (Thrown "Error" "Note not found")
  | Some idx =>
      let now := toISOString now in
      let updated := with_updatedAt now (spread (l !! idx) note) in
      set_notes (sortDescByUpdatedAt (<[idx := updated]> l)) ;;;
      persist ;;;
      ret updated
  end.

Definition deleteNote (i : string) : M State unit :=
  l <- get_notes ;;
  let before := length l in
  let l' := List.filter (fun n => negb (bool_decide (id n = i))) l in
  set_notes l' ;;;
  if negb (length l' =? before)%nat then persist else ret tt.

End WithPlatform.
End NotesService.

(** ** A reference runtime

    An executable [Platform], to run the services on concrete inputs:
    the date format of [toISOString] with the proleptic Gregorian
    calendar, and JSON texts without fractions and exponents. *)

Module Reference.

Definition digit (z : Z) : ascii := ascii_of_N (48 + Z.to_N (z mod 10)).

(** The last [w] decimal digits of [z], zero padded. *)
Fixpoint digits (w : nat) (z : Z) : string :=
  match w with
  | O => ""
  | S w' => digits w' (z / 10) +:+ String (digit z) ""
  end.

Definition digit_value (c : ascii) : option Z :=
  let n := Z.of_N (N_of_ascii c) in
  if (48 <=? n) && (n <=? 57) then Some (n - 48) else None.

(** The number that a non-empty string of decimal digits denotes. *)
Fixpoint number_from (acc : Z) (s : string) : option Z :=
  match s with
  | EmptyString => Some acc
  | String c s' =>
      match digit_value c with
      | Some d => number_from (10 * acc + d) s'
      | None => None
      end
  end.

Definition number (s : string) : option Z :=
  match s with
  | EmptyString => None
  | _ => number_from 0 s
  end.

(** *** Dates *)

Definition msPerDay : Z := 86400000.

Definition civil_from_days (z : Z) : Z * Z * Z :=
  let z := z + 719468 in
  let era := z / 146097 in
  let doe := z - era * 146097 in
  let yoe := (doe - doe / 1460 + doe / 36524 - doe / 146096) / 365 in
  let doy := doe - (365 * yoe + yoe / 4 - yoe / 100) in
  let mp := (5 * doy + 2) / 153 in
  let d := doy - (153 * mp + 2) / 5 + 1 in
  let m := if mp <? 10 then mp + 3 else mp - 9 in
  let y := yoe + era * 400 in
  (if m <=? 2 then y + 1 else y, m, d).

Definition days_from_civil (y m d : Z) : Z :=
  let y := if m <=? 2 then y - 1 else y in
  let era := y / 400 in
  let yoe := y - era * 400 in
  let doy := (153 * (if 2 <? m then m - 3 else m + 9) + 2) / 5 + d - 1 in
  let doe := yoe * 365 + yoe / 4 - yoe / 100 + doy in
  era * 146097 + doe - 719468.

Definition year_string (y : Z) : string :=
  if (0 <=? y) && (y <=? 9999) then digits 4 y
  else (if y <? 0 then "-" else "+") +:+ digits 6 (Z.abs y).

Definition toISOString (t : Z) : string :=
  let '(y, m, d) := civil_from_days (t / msPerDay) in
  let ms := t mod msPerDay in
  year_string y +:+ "-" +:+ digits 2 m +:+ "-" +:+ digits 2 d +:+ "T"
    +:+ digits 2 (ms / 3600000) +:+ ":" +:+ digits 2 (ms / 60000 mod 60) +:+ ":"
    +:+ digits 2 (ms / 1000 mod 60) +:+ "." +:+ digits 3 (ms mod 1000) +:+ "Z".

Definition field (start len : nat) (s : string) : option Z :=
  number (String.substring start len s).

Definition separators_ok (s : string) : bool :=
  bool_decide (String.substring 4 1 s = "-") && bool_decide (String.substring 7 1 s = "-")
  && bool_decide (String.substring 10 1 s = "T") && bool_decide (String.substring 13 1 s = ":")
  && bool_decide (String.substring 16 1 s = ":") && bool_decide (String.substring 19 1 s = ".")
  && bool_decide (String.substring 23 1 s = "Z").

(** [Date.parse] on the 24 characters [YYYY-MM-DDTHH:mm:ss.sssZ];
    any other string is taken as not a date. *)
Definition Date_parse (s : string) : option Z :=
  if negb ((String.length s =? 24)%nat && separators_ok s) then None
  else
    match field 0 4 s, field 5 2 s, field 8 2 s,
          field 11 2 s, field 14 2 s, field 17 2 s, field 20 3 s with
    | Some y, Some m, Some d, Some hh, Some mm, Some ss, Some ms =>
        let days := days_from_civil y m d in
        if (1 <=? m) && (m <=? 12) && (1 <=? d)
           && bool_decide (civil_from_days days = (y, m, d))
           && (hh <=? 23) && (mm <=? 59) && (ss <=? 59)
        then Some (days * msPerDay + hh * 3600000 + mm * 60000 + ss * 1000 + ms)
        else None
    | _, _, _, _, _, _, _ => None
    end.

(** *** JSON *)

Definition hex_digit (z : Z) : ascii :=
  ascii_of_N (Z.to_N (if z <? 10 then 48 + z else 87 + z)).

Definition dquote : ascii := ascii_of_N 34.
Definition backslash : ascii := ascii_of_N 92.

Definition escape (c : ascii) : string :=
  let n := Z.of_N (N_of_ascii c) in
  if (n =? 34) || (n =? 92) then String backslash (String c "")
  else if n =? 8 then String backslash "b"
  else if n =? 9 then String backslash "t"
  else if n =? 10 then String backslash "n"
  else if n =? 12 then String backslash "f"
  else if n =? 13 then String backslash "r"
  else if n <? 32 then
    String backslash ("u00" +:+ String (hex_digit (n / 16)) (String (hex_digit (n mod 16)) ""))
  else String c "".

Fixpoint escaped (s : string) : string :=
  match s with
  | EmptyString => ""
  | String c s' => escape c +:+ escaped s'
  end.

Definition quote (s : string) : string :=
  String dquote (escaped s +:+ String dquote "").

Fixpoint stringify (v : json) : string :=
  match v with
  | JNull => "null"
  | JBool true => "true"
  | JBool false => "false"
  | JNum z => Json.decimal z
  | JStr s => quote s
  | JArr l => "[" +:+ Json.join "," (map stringify l) +:+ "]"
  | JObj es =>
      "{" +:+ Json.join "," (map (fun e => quote (fst e) +:+ ":" +:+ stringify (snd e)) es)
          +:+ "}"
  end.

Definition code (c : ascii) : Z := Z.of_N (N_of_ascii c).

Definition json_ws (c : ascii) : bool :=
  (code c =? 32) || (code c =? 9) || (code c =? 10) || (code c =? 13).

Fixpoint skip_ws (s : string) : string :=
  match s with
  | String c s' => if json_ws c then skip_ws s' else s
  | EmptyString => EmptyString
  end.

Definition hex_value (c : ascii) : option Z :=
  let n := code c in
  if (48 <=? n) && (n <=? 57) then Some (n - 48)
  else if (97 <=? n) && (n <=? 102) then Some (n - 87)
  else if (65 <=? n) && (n <=? 70) then Some (n - 55)
  else None.

Definition unescape (c : ascii) : option ascii :=
  let n := code c in
  if (n =? 34) || (n =? 92) || (n =? 47) then Some c
  else if n =? 98 then Some (ascii_of_N 8)
  else if n =? 116 then Some (ascii_of_N 9)
  else if n =? 110 then Some (ascii_of_N 10)
  else if n =? 102 then Some (ascii_of_N 12)
  else if n =? 114 then Some (ascii_of_N 13)
  else None.

(** The characters of a string literal after its opening quote, and
    what follows the closing quote. *)
Fixpoint parse_chars (s : string) : option (string * string) :=
  match s with
  | EmptyString => None
  | String c rest =>
      if code c =? 34 then Some ("", rest)
      else if code c =? 92 then
        match rest with
        | String e rest' =>
            if code e =? 117 then
              match rest' with
              | String h1 (String h2 (String h3 (String h4 rest''))) =>
                  match hex_value h1, hex_value h2, hex_value h3, hex_value h4,
                        parse_chars rest'' with
                  | Some 0, Some 0, Some a, Some b, Some (str, r) =>
                      Some (String (ascii_of_N (Z.to_N (16 * a + b))) str, r)
                  | _, _, _, _, _ => None
                  end
              | _ => None
              end
            else
              match unescape e, parse_chars rest' with
              | Some c', Some (str, r) => Some (String c' str, r)
              | _, _ => None
              end
        | EmptyString => None
        end
      else if code c <? 32 then None
      else
        match parse_chars rest with
        | Some (str, r) => Some (String c str, r)
        | None => None
        end
  end.

(** The longest prefix of decimal digits, and the rest. *)
Fixpoint span_digits (s : string) : string * string :=
  match s with
  | String c s' =>
      match digit_value c with
      | Some _ => let (ds, r) := span_digits s' in (String c ds, r)
      | None => ("", s)
      end
  | EmptyString => ("", "")
  end.

Definition parse_number (s : string) : option (json * string) :=
  let '(neg, s') := match s with
                    | String c r => if code c =? 45 then (true, r) else (false, s)
                    | EmptyString => (false, s)
                    end in
  let (ds, r) := span_digits s' in
  match number ds, r with
  | Some z, String c _ =>
      (* a fraction or an exponent: outside the texts covered here *)
      if (code c =? 46) || (code c =? 101) || (code c =? 69) then None
      else Some (JNum (if neg then - z else z), r)
  | Some z, EmptyString => Some (JNum (if neg then - z else z), r)
  | None, _ => None
  end.

Definition keyword (k : string) (v : json) (s : string) : option (json * string) :=
  if startsWith s k then Some (v, String.substring (String.length k) (String.length s) s)
  else None.

Fixpoint parse_value (fuel : nat) (s : string) : option (json * string) :=
  match fuel with
  | O => None
  | S fuel =>
      match skip_ws s with
      | EmptyString => None
      | String c rest as s =>
          if code c =? 110 then keyword "null" JNull s
          else if code c =? 116 then keyword "true" (JBool true) s
          else if code c =? 102 then keyword "false" (JBool false) s
          else if code c =? 34 then
            match parse_chars rest with
            | Some (str, r) => Some (JStr str, r)
            | None => None
            end
          else if code c =? 91 then
            match skip_ws rest with
            | String c' r =>
                if code c' =? 93 then Some (JArr [], r)
                else
                  match parse_elements fuel rest with
                  | Some (vs, r) => Some (JArr vs, r)
                  | None => None
                  end
            | EmptyString => None
            end
          else if code c =? 123 then
            match skip_ws rest with
            | String c' r =>
                if code c' =? 125 then Some (JObj [], r)
                else
                  match parse_members fuel rest with
                  | Some (es, r) => Some (JObj es, r)
                  | None => None
                  end
            | EmptyString => None
            end
          else parse_number s
      end
  end
with parse_elements (fuel : nat) (s : string) : option (list json * string) :=
  match fuel with
  | O => None
  | S fuel =>
      match parse_value fuel s with
      | Some (v, r) =>
          match skip_ws r with
          | String c r' =>
              if code c =? 93 then Some ([v], r')
              else if code c =? 44 then
                match parse_elements fuel r' with
                | Some (vs, r'') => Some (v :: vs, r'')
                | None => None
                end
              else None
          | EmptyString => None
          end
      | None => None
      end
  end
with parse_members (fuel : nat) (s : string) : option (list (string * json) * string) :=
  match fuel with
  | O => None
  | S fuel =>
      match skip_ws s with
      | String q rest =>
          if code q =? 34 then
            match parse_chars rest with
            | Some (k, r) =>
                match skip_ws r with
                | String colon r1 =>
                    if code colon =? 58 then
                      match parse_value fuel r1 with
                      | Some (v, r2) =>
                          match skip_ws r2 with
                          | String c r3 =>
                              if code c =? 125 then Some ([(k, v)], r3)
                              else if code c =? 44 then
                                match parse_members fuel r3 with
                                | Some (es, r4) => Some ((k, v) :: es, r4)
                                | None => None
                                end
                              else None
                          | EmptyString => None
                          end
                      | None => None
                      end
                    else None
                | EmptyString => None
                end
            | None => None
            end
          else None
      | EmptyString => None
      end
  end.

Definition SyntaxError : exn := Thrown "SyntaxError" "Unexpected token".

Definition JSON_parse (s : string) : exn + json :=
  match parse_value (2 * String.length s + 2) s with
  | Some (v, r) =>
      match skip_ws r with
      | EmptyString => inr v
      | _ => inl SyntaxError
      end
  | None => inl SyntaxError
  end.

Definition JSON_stringify (v : json) : exn + string := inr (stringify v).

Definition platform : Platform :=
  Build_Platform JSON_parse JSON_stringify Date_parse toISOString.

End Reference.

(** ** The vocabulary of the specification *)

Section Vocabulary.
Context `{Platform}.
Import Note.

(** The timestamp of [n.updatedAt]. *)
Definition timestamp (n : Note) : option Z := Date_parse (updatedAt n).

(** The timestamp of [a] is greater than or equal to that of [b]. As in
    JavaScript, no comparison with [NaN] holds. *)
Definition newer_or_equal (a b : Note) : Prop :=
  match timestamp a, timestamp b with
  | Some ta, Some tb => tb <= ta
  | _, _ => False
  end.

(** [n.updatedAt] is a date: a non-empty string that [Date.parse]
    accepts. *)
Definition dated (n : Note) : Prop :=
  updatedAt n <> "" /\ is_Some (timestamp n).

Definition is_dated (n : Note) : bool :=
  truthy (updatedAt n) && bool_decide (is_Some (timestamp n)).

(** The four fields that [sanitizeNotes] asks for are non-empty. *)
Definition complete (n : Note) : Prop :=
  id n <> "" /\ title n <> "" /\ createdAt n <> "" /\ updatedAt n <> "".

Definition is_complete (n : Note) : bool :=
  truthy (id n) && truthy (title n) && truthy (createdAt n) && truthy (updatedAt n).

(** The note matches the query [q]: [q] is a substring of the lower-cased
    title, of the lower-cased content, or of some lower-cased tag. *)
Definition matching (q : string) (n : Note) : Prop :=
  substring_of q (toLowerCase (title n))
  \/ substring_of q (toLowerCase (content n))
  \/ exists t, In t (tags n) /\ substring_of q (toLowerCase t).

(** The store answers its calls. *)
Definition working (ls : Storage) : Prop :=
  has_getItem ls = true /\ has_setItem ls = true /\ failing ls = false.

(** The three states of the underlying store in which [read] has nothing
    to return. *)
Definition store_unavailable (w : World) : Prop :=
  match w with
  | GlobalThis (Present ls) => ~ working ls
  | _ => True
  end.

Definition key_absent (key : string) (w : World) : Prop :=
  exists ls, w = GlobalThis (Present ls) /\ items ls !! key = None.

Definition payload_undecodable (key : string) (w : World) : Prop :=
  exists ls raw e,
    w = GlobalThis (Present ls) /\ items ls !! key = Some raw /\ JSON_parse raw = inl e.

End Vocabulary.

(** ** Sample data, run on the reference runtime *)

Module Sample.
Import Note.
#[local] Existing Instance Reference.platform.

(** A [localStorage] that answers every call and holds [m]. *)
Definition local_storage (m : gmap string string) : Storage :=
  {| items := m; has_getItem := true; has_setItem := true; has_removeItem := true;
     failing := false; quota := None; calls := [] |}.

Definition browser (m : gmap string string) : World :=
  GlobalThis (Present (local_storage m)).

(** A [localStorage] that denies every call. *)
Definition locked_storage : Storage :=
  {| items := {[ StorageService.NOTES_KEY := "[]" ]};
     has_getItem := true; has_setItem := true; has_removeItem := true;
     failing := true; quota := None; calls := [] |}.

Definition e1 : Entropy := {| clock := 1700000000000; random36 := "k3x9qa" |}.
Definition e2 : Entropy := {| clock := 1700000000000; random36 := "0zt41m" |}.
Definition e3 : Entropy := {| clock := 1700000300000; random36 := "b7w2hc" |}.

(** 2023-11-14T22:13:20.000Z *)
Definition t0 : Z := 1700000000000.

(** First run: nothing is stored, and the constructor seeds. *)
Definition seeded : State := snd (NotesService.new t0 e1 e2 (browser ∅)).

Definition seeded_storage : Storage :=
  match world seeded with
  | GlobalThis (Present ls) => ls
  | _ => local_storage ∅
  end.

(** Five minutes later a note with an empty title is created. *)
Definition untitled : Payload :=
  {| payload_title := ""; payload_content := Some "call the plumber";
     payload_tags := None |}.

Definition after_create : State :=
  snd (NotesService.createNote (t0 + 300000) e3 untitled seeded).

Definition shopping : Note :=
  {| id := "1699990000000-a1b2c3"; title := "Shopping"; content := "milk";
     tags := ["home"];
     createdAt := "2023-11-01T08:00:00.000Z"; updatedAt := "2023-11-02T09:30:00.000Z" |}.

(** The same note as a caller can send it to [updateNote], with another
    [createdAt]. *)
Definition shopping_edit : Note :=
  {| id := "1699990000000-a1b2c3"; title := "Shopping"; content := "milk, eggs";
     tags := ["home"];
     createdAt := "2001-01-01T00:00:00.000Z"; updatedAt := "2023-11-02T09:30:00.000Z" |}.

Definition one_note : State := {| notes := [shopping]; world := browser ∅ |}.

(** A note whose [updatedAt] is a non-empty string and not a date. *)
Definition undated : Note :=
  {| id := "1699990000001-d4e5f6"; title := "Shopping list"; content := "";
     tags := [];
     createdAt := "2023-11-03T10:00:00.000Z"; updatedAt := "unknown" |}.

(** The JSON text of the two notes, as found in the store. *)
Definition stored_undated : string :=
  Reference.stringify (encode_notes [undated; shopping]).

Definition with_undated : State :=
  snd (NotesService.new t0 e1 e2
         (browser {[ StorageService.NOTES_KEY := stored_undated ]})).

(** A stored note that carries the id that [generateId] gives for [e3],
    last edited on 2030-01-01. *)
Definition taken : Note :=
  {| id := "1700000300000-b7w2hc"; title := "Plan"; content := "book flights";
     tags := ["travel"];
     createdAt := "2023-11-14T22:18:20.000Z"; updatedAt := "2030-01-01T00:00:00.000Z" |}.

Definition with_taken : State :=
  snd (NotesService.new t0 e1 e2
         (browser {[ StorageService.NOTES_KEY := Reference.stringify (encode_notes [taken]) ]})).

Definition errand : Payload :=
  {| payload_title := "Errand"; payload_content := Some "call the plumber";
     payload_tags := None |}.

End Sample.

(** ** More vocabulary *)

(** What the store holds; nothing when there is no store. *)
Definition stored (w : World) : gmap string string :=
  match w with
  | GlobalThis (Present ls) => items ls
  | _ => ∅
  end.

Definition is_dash (c : ascii) : bool := bool_decide (c = "-"%char).

Fixpoint no_dash (s : string) : bool :=
  match s with
  | EmptyString => true
  | String c s' => negb (is_dash c) && no_dash s'
  end.

Section MoreVocabulary.
Context `{Platform}.
Import Note.

(** The store holds the JSON text of the collection in memory. *)
Definition mirrored (s : State) : Prop :=
  exists ls payload,
    world s = GlobalThis (Present ls)
    /\ JSON_stringify (encode_notes (notes s)) = inr payload
    /\ items ls !! StorageService.NOTES_KEY = Some payload.

(** The store answers and its payload under [key] decodes to [v]. *)
Definition decodes_to (key : string) (w : World) (v : json) : Prop :=
  exists ls raw,
    w = GlobalThis (Present ls) /\ working ls
    /\ items ls !! key = Some raw /\ JSON_parse raw = inr v.

(** [Array.isArray(v) && v.length > 0] *)
Definition nonempty_array (v : json) : bool :=
  match v with
  | JArr (_ :: _) => true
  | _ => false
  end.

(** The collection is in order: every [updatedAt] is a date, and the
    dates descend. *)
Definition ordered (s : State) : Prop :=
  Forall dated (notes s) /\ Sorted newer_or_equal (notes s).

(** The clock reading [now] prints as a date that reads back as [now]. *)
Definition clock_ok (now : Z) : Prop :=
  toISOString now <> "" /\ Date_parse (toISOString now) = Some now.

Definition has_timestamp (t : Z) (n : Note) : bool :=
  bool_decide (timestamp n = Some t).

(** Every note of the list is dated not later than [now]. *)
Definition not_after (now : Z) (l : list Note) : Prop :=
  forall n t, In n l -> timestamp n = Some t -> t <= now.

End MoreVocabulary.

(** ** notes-list.component.ts *)

Module NotesListComponent.
Import Note.

Section Snippet.
(** The string of the one character U+2026, the ellipsis; it lies outside
    the range of the strings of the model and is taken as it comes. *)
Variable ellipsis : string.

Definition snippet (note : Note) : string :=
  let text := trim (content note) in
  if negb (truthy text) then ""
  else if (80 <? String.length text)%nat then String.substring 0 80 text +:+ ellipsis
  else text.
End Snippet.

(** A character of the class [[^\/\?]]. *)
Definition id_char (c : ascii) : bool :=
  negb (bool_decide (c = "/"%char)) && negb (bool_decide (c = "?"%char)).

(** The longest prefix in that class: what the greedy [+] takes. *)
Fixpoint span_id (s : string) : string :=
  match s with
  | String c s' => if id_char c then String c (span_id s') else ""
  | EmptyString => ""
  end.

(** What follows the prefix [p] of [s], when [s] starts with [p]. *)
Fixpoint after (p s : string) : option string :=
  match p, s with
  | EmptyString, _ => Some s
  | String a p', String b s' => if bool_decide (a = b) then after p' s' else None
  | String _ _, EmptyString => None
  end.

(** The match of [/\/notes\/([^\/\?]+)/] that starts at the head of [s]:
    its group 1. *)
Definition match_here (s : string) : option string :=
  match after "/notes/" s with
  | Some rest => let g := span_id rest in if truthy g then Some g else None
  | None => None
  end.

(** [url.match(/\/notes\/([^\/\?]+)/)]: group 1 of the leftmost match;
    [None] is [null]. *)
Fixpoint match_notes (url : string) : option string :=
  match match_here url with
  | Some g => Some g
  | None =>
      match url with
      | String _ url' => match_notes url'
      | EmptyString => None
      end
  end.

(** [updateActiveFromUrl(url)]: the value it sets [activeNoteId] to. *)
Definition updateActiveFromUrl (url : string) : option string :=
  match match_notes url with
  | Some g => if negb (bool_decide (g = "new")) then Some g else None
  | None => None
  end.

(** [isActive(note)], given the value of [activeNoteId]. *)
Definition isActive (activeNoteId : option string) (note : Note) : bool :=
  bool_decide (activeNoteId = Some (id note)).

(** What the key handler of the list touches: the signal [focusedIndex],
    and the calls of [focusItem], of [event.preventDefault] and of
    [router.navigate], latest first. *)
Record View : Type := {
  focusedIndex : Z;
  focused : list Z;
  prevented : nat;
  navigated : list (list string);
}.

(** [Math.max(0, Math.min(notes.length - 1, i))] *)
Definition clamp (len : nat) (i : Z) : Z := Z.max 0 (Z.min (Z.of_nat len - 1) i).

(** [notes[index]] for an integer [index]; [None] is [undefined]. *)
Definition at_index (notes : list Note) (index : Z) : option Note :=
  if index <? 0 then None else notes !! Z.to_nat index.

(** [event.preventDefault(); nextIndex = i; this.focusItem(nextIndex)],
    and the [focusedIndex.set(nextIndex)] that ends the handler. *)
Definition move (i : Z) (v : View) : View :=
  {| focusedIndex := i; focused := i :: focused v; prevented := S (prevented v);
     navigated := navigated v |}.

(** [onItemKeydown(event, index, notes)] for [event.key = key] and an
    integer [index]. With [Enter] or a space on an index that holds no
    note, [openNote] reads [id] of [undefined] and throws. *)
Definition onItemKeydown (key : string) (index : Z) (notes : list Note) : M View unit :=
  fun v =>
    match notes with
    | [] => (inr tt, v)
    | _ =>
        if bool_decide (key = "ArrowDown")
        then (inr tt, move (clamp (length notes) (index + 1)) v)
        else if bool_decide (key = "ArrowUp")
        then (inr tt, move (clamp (length notes) (index - 1)) v)
        else if bool_decide (key = "Home") then (inr tt, move 0 v)
        else if bool_decide (key = "End")
        then (inr tt, move (Z.of_nat (length notes) - 1) v)
        else if bool_decide (key = "Enter") || bool_decide (key = " ") then
          match at_index notes index with
          | Some note =>
              (inr tt, {| focusedIndex := index; focused := focused v;
                          prevented := S (prevented v);
                          navigated := ["/notes"; id note] :: navigated v |})
          | None =>
              (inl (Thrown "TypeError" "Cannot read properties of undefined"),
               {| focusedIndex := focusedIndex v; focused := focused v;
                  prevented := S (prevented v); navigated := navigated v |})
          end
        else (inr tt, {| focusedIndex := index; focused := focused v;
                         prevented := prevented v; navigated := navigated v |})
    end.

End NotesListComponent.

(** Every character of the string is in the class [[^\/\?]]. *)
Definition all_id_chars (s : string) : Prop :=
  Forall (fun c => NotesListComponent.id_char c = true) (list_ascii_of_string s).

(** ** note-editor.component.ts *)

Module NoteEditorComponent.
Import Note.

(** The signals of the editor, the value and the touched state of its
    form, and the calls of [router.navigate], latest first. *)
Record Editor : Type := {
  isCreateMode : bool;
  noteId : option string;
  note : option Note;
  statusMessage : string;
  errorMessage : string;
  form_title : string;
  form_content : string;
  form_touched : bool;
  navigated : list (list string);
}.

(** The editor as the field initialisers and the form of [ngOnInit] leave
    it. *)
Definition initial : Editor :=
  {| isCreateMode := true; noteId := None; note := None;
     statusMessage := ""; errorMessage := "";
     form_title := ""; form_content := ""; form_touched := false;
     navigated := [] |}.

Definition set_status (m : string) (ed : Editor) : Editor :=
  {| isCreateMode := isCreateMode ed; noteId := noteId ed; note := note ed;
     statusMessage := m; errorMessage := errorMessage ed;
     form_title := form_title ed; form_content := form_content ed;
     form_touched := form_touched ed; navigated := navigated ed |}.

Definition set_error (m : string) (ed : Editor) : Editor :=
  {| isCreateMode := isCreateMode ed; noteId := noteId ed; note := note ed;
     statusMessage := statusMessage ed; errorMessage := m;
     form_title := form_title ed; form_content := form_content ed;
     form_touched := form_touched ed; navigated := navigated ed |}.

Definition markAllAsTouched (ed : Editor) : Editor :=
  {| isCreateMode := isCreateMode ed; noteId := noteId ed; note := note ed;
     statusMessage := statusMessage ed; errorMessage := errorMessage ed;
     form_title := form_title ed; form_content := form_content ed;
     form_touched := true; navigated := navigated ed |}.

Definition navigate (commands : list string) (ed : Editor) : Editor :=
  {| isCreateMode := isCreateMode ed; noteId := noteId ed; note := note ed;
     statusMessage := statusMessage ed; errorMessage := errorMessage ed;
     form_title := form_title ed; form_content := form_content ed;
     form_touched := form_touched ed; navigated := commands :: navigated ed |}.

(** The validators of the title control, as Angular defines them:
    [Validators.required] rejects the empty string, and
    [Validators.maxLength(120)] a string of more than 120 code units. *)
Definition required_error (title : string) : bool := (String.length title =? 0)%nat.
Definition maxlength_error (title : string) : bool := (120 <? String.length title)%nat.

(** [this.form.invalid]: the content control has no validator. *)
Definition form_invalid (ed : Editor) : bool :=
  required_error (form_title ed) || maxlength_error (form_title ed).

(** [titleErrorMsg()]; [None] is [null]. *)
Definition titleErrorMsg (ed : Editor) : option string :=
  if required_error (form_title ed) then Some "Title is required."
  else if maxlength_error (form_title ed) then Some "Title must be at most 120 characters."
  else None.

(** [e?.message || fallback] *)
Definition message_of (e : exn) (fallback : string) : string :=
  or_else (exn_message e) fallback.

Section WithPlatform.
Context `{Platform}.

(** The handler that [ngOnInit] subscribes to [route.paramMap], for the
    parameter [id]; [None] is [null]. (The focus that the create branch
    asks for through [setTimeout] is left out.) *)
Definition onParams (i : option string) (ed : Editor) (s : State) : Editor :=
  match i with
  | Some i' =>
      if negb (truthy i') || bool_decide (i' = "new") then
        {| isCreateMode := true; noteId := None; note := None;
           statusMessage := "Creating a new note."; errorMessage := errorMessage ed;
           form_title := ""; form_content := ""; form_touched := false;
           navigated := navigated ed |}
      else
        match NotesService.getNote i' s with
        | None =>
            {| isCreateMode := false; noteId := Some i'; note := None;
               statusMessage := statusMessage ed;
               errorMessage := "The requested note could not be found.";
               form_title := form_title ed; form_content := form_content ed;
               form_touched := form_touched ed; navigated := navigated ed |}
        | Some found =>
            {| isCreateMode := false; noteId := Some i'; note := Some found;
               statusMessage := "Editing note titled " +:+ or_else (title found) "Untitled" +:+ ".";
               errorMessage := errorMessage ed;
               form_title := title found; form_content := content found;
               form_touched := form_touched ed; navigated := navigated ed |}
        end
  | None =>
      {| isCreateMode := true; noteId := None; note := None;
         statusMessage := "Creating a new note."; errorMessage := errorMessage ed;
         form_title := ""; form_content := ""; form_touched := false;
         navigated := navigated ed |}
  end.

(** [{ ...existing, title, content }] *)
Definition with_text (t c : string) (n : Note) : Note :=
  {| id := id n; title := t; content := c; tags := tags n;
     createdAt := createdAt n; updatedAt := updatedAt n |}.

(** [onSave()]; [now] and [e] are what the service reads from the clock
    and the random source. *)
Definition onSave (now : Z) (e : Entropy) (ed : Editor) (s : State) : Editor * State :=
  let ed := set_error "" ed in
  if form_invalid ed then
    (set_error "Please fix validation errors before saving." (markAllAsTouched ed), s)
  else
    let title := form_title ed in
    let content := form_content ed in
    if isCreateMode ed then
      match NotesService.createNote now e
              {| payload_title := trim title; payload_content := Some (trim content);
                 payload_tags := None |} s with
      | (inr created, s') =>
          (navigate ["/notes"; id created] (set_status "Note created successfully." ed), s')
      | (inl err, s') =>
          (set_error (message_of err "An unexpected error occurred while saving the note.") ed,
           s')
      end
    else
      match noteId ed with
      | Some i =>
          if negb (truthy i) then (set_error "Missing note ID. Unable to update." ed, s)
          else
            match NotesService.getNote i s with
            | None => (set_error "Note not found. It may have been deleted." ed, s)
            | Some existing =>
                let updated := with_text (trim title) (trim content) existing in
                match NotesService.updateNote now updated s with
                | (inr _, s') => (set_status "Note updated." ed, s')
                | (inl err, s') =>
                    (set_error
                       (message_of err "An unexpected error occurred while saving the note.")
                       ed, s')
                end
            end
      | None => (set_error "Missing note ID. Unable to update." ed, s)
      end.

(** [onCancel()] *)
Definition onCancel (ed : Editor) : Editor := navigate ["/notes"] ed.

(** [onDelete()]; [confirmed] is the answer of the confirmation dialog
    ([true] where there is no [confirm]). *)
Definition onDelete (confirmed : bool) (ed : Editor) (s : State) : Editor * State :=
  match noteId ed with
  | Some i =>
      if negb (truthy i) then (set_error "Missing note ID. Unable to delete." ed, s)
      else if negb confirmed then (ed, s)
      else
        match NotesService.deleteNote i s with
        | (inr _, s') => (navigate ["/notes"] (set_status "Note deleted." ed), s')
        | (inl err, s') => (set_error (message_of err "Failed to delete the note.") ed, s')
        end
  | None => (set_error "Missing note ID. Unable to delete." ed, s)
  end.

End WithPlatform.
End NoteEditorComponent.

(** ** More sample data *)

Module Sample2.
Import Note Sample.
#[local] Existing Instance Reference.platform.

(** Two notes stamped at the same millisecond, between an older and a
    newer one. *)
Definition tie_a : Note :=
  {| id := "1699990000002-aaaaaa"; title := "A"; content := ""; tags := [];
     createdAt := "2023-11-05T10:00:00.000Z"; updatedAt := "2023-11-05T10:00:00.000Z" |}.

Definition tie_b : Note :=
  {| id := "1699990000003-bbbbbb"; title := "B"; content := ""; tags := [];
     createdAt := "2023-11-05T10:00:00.000Z"; updatedAt := "2023-11-05T10:00:00.000Z" |}.

Definition newest : Note :=
  {| id := "1699990000004-cccccc"; title := "C"; content := ""; tags := [];
     createdAt := "2023-11-06T10:00:00.000Z"; updatedAt := "2023-11-06T10:00:00.000Z" |}.

Definition with_ties : list Note := [shopping; tie_a; newest; tie_b].

(** 2023-11-05T10:00:00.000Z *)
Definition t_tie : Z := 1699178400000.

(** The editor on the route of the first seed note, with an edited form. *)
Definition editing : NoteEditorComponent.Editor :=
  {| NoteEditorComponent.isCreateMode := false;
     NoteEditorComponent.noteId := Some "1700000000000-0zt41m";
     NoteEditorComponent.note := None;
     NoteEditorComponent.statusMessage := "";
     NoteEditorComponent.errorMessage := "";
     NoteEditorComponent.form_title := " Tips and tricks ";
     NoteEditorComponent.form_content := "Search is case-insensitive. ";
     NoteEditorComponent.form_touched := false;
     NoteEditorComponent.navigated := [] |}.

(** The editor on the route [/notes/new], with the given title. *)
Definition creating (title : string) : NoteEditorComponent.Editor :=
  {| NoteEditorComponent.isCreateMode := true;
     NoteEditorComponent.noteId := None;
     NoteEditorComponent.note := None;
     NoteEditorComponent.statusMessage := "Creating a new note.";
     NoteEditorComponent.errorMessage := "";
     NoteEditorComponent.form_title := title;
     NoteEditorComponent.form_content := " buy stamps ";
     NoteEditorComponent.form_touched := false;
     NoteEditorComponent.navigated := [] |}.


(** The first of the seed notes, "Tips". *)
Definition tips : Note := hd shopping (notes seeded).

Definition idle_view : NotesListComponent.View :=
  {| NotesListComponent.focusedIndex := 0; NotesListComponent.focused := [];
     NotesListComponent.prevented := 0; NotesListComponent.navigated := [] |}.

End Sample2.

(** ** Tactics *)

(** Unfold one run of the storage adapter. *)
Ltac run_adapter :=
  unfold StorageService.read, StorageService.write, StorageService.remove,
    StorageService.storage, try_catch, bind, ret, call, getItem, setItem, removeItem;
  simpl.

(** Case analysis on the next test that a computation makes. *)
Ltac branch :=
  match goal with
  | |- context [if negb ?b || negb ?c then _ else _] => destruct b eqn:?, c eqn:?
  | |- context [if negb ?b then _ else _] => destruct b eqn:?
  | |- context [if ?b then _ else _] => destruct b eqn:?
  | |- context [match ?x with Some _ => _ | None => _ end] => destruct x eqn:?
  | |- context [match ?x with inl _ => _ | inr _ => _ end] => destruct x eqn:?
  end; simpl.

(** * Properties *)

(** ** The model at work *)

Section Runs.
Import Note NotesService Sample.
#[local] Existing Instance Reference.platform.

Example toLowerCase_ex : toLowerCase "Welcome to Notes" = "welcome to notes".
Proof. reflexivity. Qed.

Example trim_ex : trim "  a b  " = "a b".
Proof. reflexivity. Qed.

Example includes_ex : includes "tips" "tip" = true /\ includes "welcome" "tip" = false.
Proof. split; reflexivity. Qed.

Example toISOString_ex :
  toISOString 1700000000000 = "2023-11-14T22:13:20.000Z"
  /\ Date_parse "2023-11-14T22:13:20.000Z" = Some 1700000000000
  /\ Date_parse "unknown" = None.
Proof. repeat split; vm_compute; reflexivity. Qed.

Example JSON_ex :
  JSON_parse (Reference.stringify (encode_notes [shopping])) = inr (encode_notes [shopping])
  /\ Reference.stringify (JArr [JObj [("n", JArr [JNum 3; JNull; JBool true])]])
     = "[{" +:+ Reference.quote "n" +:+ ":[3,null,true]}]"
  /\ JSON_parse "{oops" = inl Reference.SyntaxError.
Proof. repeat split; vm_compute; reflexivity. Qed.

(** The first run seeds two notes, the later one first, and the example
    of the specification: the query "tip" finds the note "Tips". *)
Example seeded_ex :
  map title (notes seeded) = ["Tips"; "Welcome to Notes"]
  /\ map updatedAt (notes seeded) = ["2023-11-14T22:03:20.000Z"; "2023-11-14T21:13:20.000Z"]
  /\ map title (listNotes (Some "tip") seeded) = ["Tips"].
Proof. repeat split; vm_compute; reflexivity. Qed.

(** [read] on a store that is missing, that denies access, that lacks the
    key, and that holds a text which is not JSON. *)
Example read_ex :
  fst (StorageService.read storageKey NoGlobalThis) = inr JNull
  /\ fst (StorageService.read storageKey (GlobalThis Getter_throws)) = inr JNull
  /\ fst (StorageService.read storageKey (GlobalThis (Present locked_storage))) = inr JNull
  /\ fst (StorageService.read storageKey (browser ∅)) = inr JNull
  /\ fst (StorageService.read storageKey (browser {[ storageKey := "{oops" ]})) = inr JNull
  /\ fst (StorageService.read storageKey (browser {[ storageKey := "[]" ]})) = inr (JArr []).
Proof. repeat split; vm_compute; reflexivity. Qed.

End Runs.

(** ** Strings *)

Section StringFacts.

Lemma app_nil_l (s : string) : "" +:+ s = s.
Proof. reflexivity. Qed.

Lemma app_cons (a : ascii) (s t : string) : String a s +:+ t = String a (s +:+ t).
Proof. reflexivity. Qed.

Lemma truthy_spec (s : string) : truthy s = true <-> s <> "".
Proof. unfold truthy. rewrite negb_true_iff, bool_decide_eq_false. reflexivity. Qed.

Lemma truthy_true (s : string) : s <> "" -> truthy s = true.
Proof. apply truthy_spec. Qed.

Lemma lower_char_ws (c : ascii) : is_ws (lower_char c) = is_ws c.
Proof. destruct c as [[] [] [] [] [] [] [] []]; reflexivity. Qed.

Lemma lower_char_fixes_ws (c : ascii) : is_ws c = true -> lower_char c = c.
Proof.
  destruct c as [[] [] [] [] [] [] [] []]; intros Hc; try reflexivity; discriminate Hc.
Qed.

Lemma toLowerCase_all_ws (s : string) : all_ws s -> toLowerCase s = s.
Proof.
  unfold all_ws. induction s as [|c s IH]; simpl; intros Hs; [reflexivity|].
  inversion Hs; subst. rewrite lower_char_fixes_ws by assumption.
  f_equal. auto.
Qed.

Lemma trimStart_all_ws (s : string) : all_ws s -> trimStart s = "".
Proof.
  unfold all_ws. induction s as [|c s IH]; simpl; intros Hs; [reflexivity|].
  inversion Hs as [|? ? Hc Hs']; subst. rewrite Hc. auto.
Qed.

Lemma trim_all_ws (s : string) : all_ws s -> trim s = "".
Proof. intros Hs. unfold trim. rewrite trimStart_all_ws by assumption. reflexivity. Qed.

Lemma trimStart_toLowerCase (s : string) :
  trimStart (toLowerCase s) = toLowerCase (trimStart s).
Proof.
  induction s as [|c s IH]; simpl; [reflexivity|].
  rewrite lower_char_ws. destruct (is_ws c); [assumption | reflexivity].
Qed.

Lemma trimEnd_toLowerCase (s : string) :
  trimEnd (toLowerCase s) = toLowerCase (trimEnd s).
Proof.
  induction s as [|c s IH]; simpl; [reflexivity|].
  rewrite IH, lower_char_ws.
  destruct (trimEnd s); simpl; [destruct (is_ws c)|]; reflexivity.
Qed.

(** Lower-casing and trimming commute: the lower-cased trimmed query of
    the specification is the [query.toLowerCase().trim()] of the code. *)
Lemma trim_toLowerCase (s : string) : trim (toLowerCase s) = toLowerCase (trim s).
Proof. unfold trim. rewrite trimStart_toLowerCase. apply trimEnd_toLowerCase. Qed.

Lemma toLowerCase_empty (s : string) : toLowerCase s = "" <-> s = "".
Proof. destruct s; simpl; split; intros Hs; try reflexivity; discriminate Hs. Qed.

Lemma startsWith_spec (s q : string) :
  startsWith s q = true <-> exists post, s = q +:+ post.
Proof.
  revert s. induction q as [|b q IH]; intros s; simpl.
  - split; [intros _; exists s; reflexivity | reflexivity].
  - destruct s as [|a s].
    + split; [discriminate | intros [post Hp]; discriminate Hp].
    + rewrite andb_true_iff, bool_decide_eq_true, IH. split.
      * intros [-> [post ->]]. exists post. reflexivity.
      * intros [post Hp]. rewrite app_cons in Hp. injection Hp as -> ->. eauto.
Qed.

(** [includes] decides the substring relation. *)
Lemma includes_spec (s q : string) : includes s q = true <-> substring_of q s.
Proof.
  unfold substring_of. split.
  - induction s as [|a s IH]; simpl; rewrite orb_true_iff.
    + intros [Hp | Hf]; [|discriminate Hf].
      apply startsWith_spec in Hp as [post ->]. exists "", post. reflexivity.
    + intros [Hp | Hi].
      * apply startsWith_spec in Hp as [post Hp]. exists "", post. exact Hp.
      * destruct (IH Hi) as (pre & post & ->). exists (String a pre), post. reflexivity.
  - intros (pre & post & ->). induction pre as [|a pre IH].
    + rewrite app_nil_l.
      assert (Hp : startsWith (q +:+ post) q = true) by (apply startsWith_spec; eauto).
      destruct (q +:+ post); simpl in *; rewrite Hp; reflexivity.
    + rewrite app_cons. simpl. rewrite IH. apply orb_true_r.
Qed.

End StringFacts.

(** ** Arrays *)

Section ArrayFacts.
Context {A : Type} (compareFn : A -> A -> option Z).

Lemma insert_Permutation (a : A) (l : list A) :
  Permutation (Array.insert compareFn a l) (a :: l).
Proof.
  induction l as [|b l IH]; simpl; [reflexivity|].
  destruct (Array.sorts_after compareFn a b); [|reflexivity].
  rewrite IH. apply perm_swap.
Qed.

Lemma sort_Permutation (l : list A) : Permutation (Array.sort compareFn l) l.
Proof.
  induction l as [|a l IH]; simpl; [reflexivity|].
  rewrite insert_Permutation. apply perm_skip, IH.
Qed.

Lemma sort_In (l : list A) (a : A) : In a (Array.sort compareFn l) <-> In a l.
Proof. split; apply Permutation_in; [|symmetry]; apply sort_Permutation. Qed.

Lemma findIndex_None (p : A -> bool) (l : list A) :
  (forall a, In a l -> p a = false) -> Array.findIndex p l = None.
Proof.
  induction l as [|a l IH]; simpl; intros Hl; [reflexivity|].
  rewrite (Hl a) by auto. rewrite IH by auto. reflexivity.
Qed.

(** [findIndex] and [find] stop at the same element. *)
Lemma findIndex_find (p : A -> bool) (l : list A) (a : A) :
  find p l = Some a ->
  exists idx, Array.findIndex p l = Some idx /\ l !! idx = Some a /\ p a = true.
Proof.
  induction l as [|b l IH]; simpl; [discriminate|].
  destruct (p b) eqn:Hb.
  - intros [= ->]. exists 0%nat. auto.
  - intros Hf. destruct (IH Hf) as (idx & -> & Hl & Hp). exists (S idx). auto.
Qed.

Lemma find_unique (p : A -> bool) (l : list A) (a : A) :
  In a l -> p a = true -> (forall b, In b l -> p b = true -> b = a) ->
  find p l = Some a.
Proof.
  induction l as [|b l IH]; simpl; [contradiction|].
  intros Hin Hp Hu. destruct (p b) eqn:Hb.
  - f_equal. apply Hu; auto.
  - destruct Hin as [-> | Hin]; [congruence|]. apply IH; auto.
Qed.

Lemma filter_all (p : A -> bool) (l : list A) :
  (forall a, In a l -> p a = true) -> List.filter p l = l.
Proof.
  induction l as [|a l IH]; simpl; intros Hl; [reflexivity|].
  rewrite (Hl a) by auto. f_equal. auto.
Qed.

Lemma StronglySorted_filter (R : A -> A -> Prop) (p : A -> bool) (l : list A) :
  StronglySorted R l -> StronglySorted R (List.filter p l).
Proof.
  induction 1 as [|a l Hl IH Ha]; simpl; [constructor|].
  destruct (p a); [|assumption].
  constructor; [assumption|].
  rewrite List.Forall_forall in *. intros b Hb. apply filter_In in Hb. apply Ha, Hb.
Qed.

Lemma not_Sorted_head (R : A -> A -> Prop) (a b : A) (l : list A) :
  ~ R a b -> ~ Sorted R (a :: b :: l).
Proof. intros Hab Hs. inversion Hs as [|? ? _ Hh]. inversion Hh. contradiction. Qed.

End ArrayFacts.

(** ** The order of the notes *)

Section SortFacts.
Context `{Platform}.
Import Note NotesService.

Lemma sortKey_dated (n : Note) : dated n -> sortKey n = timestamp n.
Proof.
  intros [Hne _]. unfold sortKey, timestamp, or_else.
  rewrite truthy_true by assumption. reflexivity.
Qed.

Lemma newer_or_equal_trans : Transitive newer_or_equal.
Proof.
  intros a b c. unfold newer_or_equal.
  destruct (timestamp a), (timestamp b), (timestamp c); try contradiction; lia.
Qed.

Lemma insert_HdRel (a b : Note) (l : list Note) :
  newer_or_equal b a -> HdRel newer_or_equal b l ->
  HdRel newer_or_equal b (Array.insert compareFn a l).
Proof.
  intros Hba Hl. destruct l as [|c l]; simpl; [constructor; assumption|].
  destruct (Array.sorts_after compareFn a c); constructor; [|assumption].
  inversion Hl; assumption.
Qed.

Lemma insert_Sorted (a : Note) (l : list Note) :
  dated a -> Forall dated l -> Sorted newer_or_equal l ->
  Sorted newer_or_equal (Array.insert compareFn a l).
Proof.
  intros Ha Hd Hs. induction Hs as [|b l Hs IH Hb]; simpl.
  - repeat constructor.
  - apply Forall_cons_1 in Hd as [Hdb Hdl].
    assert (Hcmp : Array.sorts_after compareFn a b = true /\ newer_or_equal b a
                   \/ Array.sorts_after compareFn a b = false /\ newer_or_equal a b).
    { unfold Array.sorts_after, compareFn, newer_or_equal.
      rewrite !sortKey_dated by assumption.
      destruct Ha as [_ [ta ->]], Hdb as [_ [tb ->]].
      destruct (0 <? tb - ta) eqn:Hlt; [left | right]; split; try reflexivity; lia. }
    destruct Hcmp as [[-> Hba] | [-> Hab]].
    + constructor; [apply IH, Hdl | apply insert_HdRel; assumption].
    + repeat constructor; assumption.
Qed.

(** On notes whose [updatedAt] is a date, [sortDescByUpdatedAt] sorts. *)
Lemma sortDescByUpdatedAt_Sorted (l : list Note) :
  Forall dated l -> Sorted newer_or_equal (sortDescByUpdatedAt l).
Proof.
  unfold sortDescByUpdatedAt. induction l as [|a l IH]; simpl; intros Hd.
  - constructor.
  - apply Forall_cons_1 in Hd as [Ha Hl].
    apply insert_Sorted; [assumption | | apply IH, Hl].
    rewrite List.Forall_forall in *. intros n Hn. apply Hl.
    apply sort_In in Hn. assumption.
Qed.

Lemma sortDescByUpdatedAt_Permutation (l : list Note) :
  Permutation (sortDescByUpdatedAt l) l.
Proof. apply sort_Permutation. Qed.

Lemma sortDescByUpdatedAt_In (l : list Note) (n : Note) :
  In n (sortDescByUpdatedAt l) <-> In n l.
Proof. apply sort_In. Qed.

Lemma filter_Sorted (p : Note -> bool) (l : list Note) :
  Sorted newer_or_equal l -> Sorted newer_or_equal (List.filter p l).
Proof.
  intros Hs. apply StronglySorted_Sorted, StronglySorted_filter.
  apply Sorted_StronglySorted; [exact newer_or_equal_trans | assumption].
Qed.

Lemma dated_forallb (l : list Note) : forallb is_dated l = true -> Forall dated l.
Proof.
  rewrite forallb_forall, List.Forall_forall. intros Hl n Hn.
  specialize (Hl n Hn). unfold is_dated in Hl.
  rewrite andb_true_iff, truthy_spec, bool_decide_eq_true in Hl. exact Hl.
Qed.

Lemma complete_forallb (l : list Note) : forallb is_complete l = true -> Forall complete l.
Proof.
  rewrite forallb_forall, List.Forall_forall. intros Hl n Hn.
  specialize (Hl n Hn). unfold is_complete in Hl.
  rewrite !andb_true_iff, !truthy_spec in Hl. unfold complete. tauto.
Qed.

End SortFacts.

(** ** The storage adapter *)

Section AdapterFacts.
Context `{Platform}.
Import StorageService.

Lemma read_never_throws (key : string) (w : World) :
  exists v w', read key w = (inr v, w').
Proof. run_adapter. destruct w as [|[| |ls]]; simpl; repeat branch; eauto. Qed.

Lemma write_never_throws (key : string) (value : json) (w : World) :
  exists w', write key value w = (inr tt, w').
Proof. run_adapter. destruct w as [|[| |ls]]; simpl; repeat branch; eauto. Qed.

Lemma remove_never_throws (key : string) (w : World) :
  exists w', remove key w = (inr tt, w').
Proof. run_adapter. destruct w as [|[| |ls]]; simpl; repeat branch; eauto. Qed.

Lemma write_run (key : string) (value : json) (w : World) :
  write key value w = (inr tt, snd (write key value w)).
Proof. destruct (write_never_throws key value w) as [w' ->]. reflexivity. Qed.

Lemma read_null (key : string) (w : World) :
  store_unavailable w \/ key_absent key w \/ payload_undecodable key w ->
  fst (read key w) = inr JNull.
Proof.
  intros [Hu | [(ls & -> & Hk) | (ls & raw & e & -> & Hk & He)]]; run_adapter.
  - destruct w as [|[| |ls]]; simpl; try reflexivity.
    repeat branch; try reflexivity.
    all: exfalso; apply Hu; repeat split; simpl in *; congruence.
  - repeat branch; try reflexivity; congruence.
  - repeat branch; try reflexivity; congruence.
Qed.

(** What [read] and [write] do on a store that answers. *)
Lemma read_working (key raw : string) (v : json) (ls : Storage) :
  working ls -> items ls !! key = Some raw -> JSON_parse raw = inr v ->
  read key (GlobalThis (Present ls))
  = (inr v, GlobalThis (Present (logged (GetItem key) ls))).
Proof.
  intros (Hg & Hs & Hf) Hk Hv. run_adapter. rewrite Hg, Hs. simpl. rewrite Hg, Hf. simpl.
  rewrite Hk. simpl. rewrite Hv. reflexivity.
Qed.

Lemma write_working (key payload : string) (value : json) (ls : Storage) :
  working ls -> JSON_stringify value = inr payload -> over_quota payload ls = false ->
  write key value (GlobalThis (Present ls))
  = (inr tt, GlobalThis (Present (with_items (<[key := payload]> (items ls))
                                             (logged (SetItem key payload) ls)))).
Proof.
  intros (Hg & Hs & Hf) Hv Hq. run_adapter. rewrite Hg, Hs. simpl. rewrite Hv. simpl.
  rewrite Hs, Hf, Hq. reflexivity.
Qed.

(** C8. Whatever the key and the state of the underlying store, [read],
    [write] and [remove] return and do not throw; and [read] returns
    [null] when the store is unavailable, when the key is absent, and
    when the stored payload fails JSON decoding. *)
Theorem storage_adapter_total (key : string) (value : json) (w : World) :
  (exists v w', read key w = (inr v, w'))
  /\ (exists w', write key value w = (inr tt, w'))
  /\ (exists w', remove key w = (inr tt, w'))
  /\ (store_unavailable w -> fst (read key w) = inr JNull)
  /\ (key_absent key w -> fst (read key w) = inr JNull)
  /\ (payload_undecodable key w -> fst (read key w) = inr JNull).
Proof.
  split; [apply read_never_throws|].
  split; [apply write_never_throws|].
  split; [apply remove_never_throws|].
  repeat split; intros Hw; apply read_null; tauto.
Qed.

End AdapterFacts.

(** ** The note repository *)

Section Repository.
Context `{Platform}.
Import Note NotesService.
#[local] Arguments sortDescByUpdatedAt : simpl never.

Lemma persist_run (s : State) :
  persist s
  = (inr tt, {| notes := notes s;
                world := snd (StorageService.write storageKey (encode_notes (notes s))
                                                   (world s)) |}).
Proof. unfold persist, bind, get_notes, liftW. rewrite write_run. reflexivity. Qed.

Lemma map_String_JStr (l : list string) : map Json.String_ (map JStr l) = l.
Proof. induction l as [|t l IH]; simpl; [reflexivity | rewrite IH; reflexivity]. Qed.

(** [sanitizeNotes] gives back a note that has the four fields. *)
Lemma sanitizeNote_encode (n : Note) : complete n -> sanitizeNote (encode_note n) = Some n.
Proof.
  intros (Hi & Ht & Hc & Hu). destruct n as [i t c g ca ua]; simpl in *.
  unfold sanitizeNote; simpl.
  rewrite !truthy_true by assumption. simpl.
  rewrite map_String_JStr. reflexivity.
Qed.

Lemma sanitizeNotes_encode (l : list Note) :
  Forall complete l -> sanitizeNotes (encode_notes l) = l.
Proof.
  unfold sanitizeNotes, encode_notes. induction 1 as [|n l Hn Hl IH]; [reflexivity|].
  change (omap sanitizeNote (map encode_note (n :: l)))
    with (match sanitizeNote (encode_note n) with
          | Some y => y :: omap sanitizeNote (map encode_note l)
          | None => omap sanitizeNote (map encode_note l)
          end).
  rewrite sanitizeNote_encode, IH by assumption. reflexivity.
Qed.

Lemma matches_spec (q : string) (n : Note) : matches q n = true <-> matching q n.
Proof.
  unfold matches, matching.
  rewrite !orb_true_iff, existsb_exists, !includes_spec.
  setoid_rewrite includes_spec. tauto.
Qed.

Lemma listNotes_query_run (query : string) (s : State) :
  trim query <> "" ->
  listNotes (Some query) s
  = List.filter (matches (toLowerCase (trim query))) (listNotes None s).
Proof.
  intros Hq. unfold listNotes.
  assert (Hne : query <> "") by (intros ->; apply Hq; reflexivity).
  rewrite truthy_true by assumption. simpl.
  rewrite trim_toLowerCase, truthy_true; [reflexivity|].
  rewrite toLowerCase_empty. assumption.
Qed.

(** The constructor on a store that answers and holds a JSON text. *)
Lemma new_reads (now : Z) (e1 e2 : Entropy) (ls : Storage) (raw : string) (v : json) :
  working ls -> items ls !! storageKey = Some raw -> JSON_parse raw = inr v ->
  new now e1 e2 (GlobalThis (Present ls))
  = match v with
    | JArr (_ :: _) =>
        (inr tt, {| notes := sortDescByUpdatedAt (sanitizeNotes v);
                    world := GlobalThis (Present (logged (GetItem storageKey) ls)) |})
    | _ =>
        (set_notes (seedNotes now e1 e2) ;;; persist)
          {| notes := []; world := GlobalThis (Present (logged (GetItem storageKey) ls)) |}
    end.
Proof.
  intros Hw Hk Hv. unfold new, constructor, bind at 1, liftW. cbn [world notes].
  rewrite (read_working _ _ _ _ Hw Hk Hv).
  destruct v as [| | | |[|x xs]|]; reflexivity.
Qed.

(** C1, amended. When the state holds a note with the id of the note
    passed to [updateNote], the update succeeds; the note it stores has
    the id of the note stored before, the [createdAt] that the caller
    supplies (so the stored [createdAt] stays only if the caller passes
    it back), and the current time as [updatedAt]; that time is not
    earlier than the [updatedAt] stored before whenever the latter is a
    date that is not later than the current reading of the clock. *)
Theorem updateNote_stored (now : Z) (note old : Note) (s : State) :
  getNote (id note) s = Some old ->
  exists updated s',
    updateNote now note s = (inr updated, s')
    /\ In updated (notes s')
    /\ id updated = id old
    /\ createdAt updated = createdAt note
    /\ updatedAt updated = toISOString now
    /\ (forall t, timestamp old = Some t -> t <= now ->
                  Date_parse (toISOString now) = Some now ->
                  newer_or_equal updated old).
Proof.
  intros Hold. unfold getNote in Hold.
  apply findIndex_find in Hold as (idx & Hidx & Hl & Hid).
  apply bool_decide_eq_true_1 in Hid.
  unfold updateNote, bind, get_notes, set_notes, ret. rewrite Hidx, persist_run.
  eexists _, _. split; [reflexivity|]. cbn [notes].
  split; [|repeat split].
  - apply sortDescByUpdatedAt_In, list_elem_of_In, list_elem_of_lookup.
    exists idx. apply list_lookup_insert_eq. eapply lookup_lt_Some, Hl.
  - simpl. symmetry. exact Hid.
  - intros t Ht Hle Hnow. unfold newer_or_equal, timestamp in *. simpl.
    rewrite Hnow, Ht. exact Hle.
Qed.

(** C2, amended. On a store that answers and whose payload decodes to a
    sequence from which sanitization keeps nothing: when the sequence is
    empty, the constructor fills the collection with the two seed notes,
    titled "Welcome to Notes" and "Tips" and stamped with the current
    time minus one hour and minus ten minutes, and writes them to the
    store at once; when the sequence is not empty, the collection stays
    empty and nothing is written. *)
Theorem constructor_seeding (now : Z) (e1 e2 : Entropy) (ls : Storage) (raw : string)
    (xs : list json) :
  working ls -> items ls !! storageKey = Some raw -> JSON_parse raw = inr (JArr xs) ->
  sanitizeNotes (JArr xs) = [] ->
  exists s,
    new now e1 e2 (GlobalThis (Present ls)) = (inr tt, s)
    /\ (xs = [] ->
        (exists n1 n2,
            Permutation (notes s) [n1; n2]
            /\ title n1 = "Welcome to Notes"
            /\ createdAt n1 = toISOString (now - 3600000)
            /\ updatedAt n1 = toISOString (now - 3600000)
            /\ title n2 = "Tips"
            /\ createdAt n2 = toISOString (now - 600000)
            /\ updatedAt n2 = toISOString (now - 600000))
        /\ world s = snd (StorageService.write storageKey (encode_notes (notes s))
                            (GlobalThis (Present (logged (GetItem storageKey) ls))))
        /\ forall payload,
            JSON_stringify (encode_notes (notes s)) = inr payload ->
            over_quota payload ls = false ->
            exists ls',
              world s = GlobalThis (Present ls')
              /\ items ls' = <[storageKey := payload]> (items ls)
              /\ calls ls' = SetItem storageKey payload :: GetItem storageKey :: calls ls)
    /\ (xs <> [] ->
        notes s = []
        /\ world s = GlobalThis (Present (logged (GetItem storageKey) ls))).
Proof.
  intros Hw Hk Hv Hs. rewrite (new_reads _ _ _ _ _ _ Hw Hk Hv).
  destruct xs as [|x xs].
  - unfold bind, set_notes. rewrite persist_run. cbn [notes world].
    eexists. split; [reflexivity|]. cbn [notes world].
    split; [intros _ | intros Hne; contradiction Hne; reflexivity].
    split; [|split; [reflexivity|]].
    + eexists _, _. split; [apply sortDescByUpdatedAt_Permutation|].
      repeat split.
    + intros payload Hp Hq.
      rewrite (write_working _ payload)
        by (try assumption; destruct Hw as (? & ? & ?); repeat split; assumption).
      eexists. split; [reflexivity|]. split; reflexivity.
  - rewrite Hs. eexists. split; [reflexivity|].
    split; [intros Hx; discriminate Hx | intros _; split; reflexivity].
Qed.

(** C3, amended. For a collection that is not empty and in which every
    note has a non-empty id, title, createdAt and updatedAt, on a store
    that answers and a JSON codec that gives the collection back:
    persisting the collection and constructing the repository again from
    the store yields the same notes (the same ids, titles, contents, tags
    and timestamps), up to their order. *)
Theorem persist_reload (now : Z) (e1 e2 : Entropy) (s : State) (ls : Storage)
    (payload : string) :
  world s = GlobalThis (Present ls) -> working ls ->
  JSON_stringify (encode_notes (notes s)) = inr payload ->
  over_quota payload ls = false ->
  JSON_parse payload = inr (encode_notes (notes s)) ->
  notes s <> [] ->
  Forall complete (notes s) ->
  exists s1 s2,
    persist s = (inr tt, s1)
    /\ new now e1 e2 (world s1) = (inr tt, s2)
    /\ Permutation (notes s2) (notes s).
Proof.
  intros Hws Hw Hp Hq Hparse Hne Hc.
  set (ls' := with_items (<[storageKey := payload]> (items ls))
                         (logged (SetItem storageKey payload) ls)).
  assert (Hw' : working ls') by (destruct Hw as (? & ? & ?); repeat split; assumption).
  assert (Hnew : new now e1 e2 (GlobalThis (Present ls'))
                 = (inr tt, {| notes := sortDescByUpdatedAt (notes s);
                               world := GlobalThis (Present (logged (GetItem storageKey) ls')) |})).
  { rewrite (new_reads _ _ _ _ payload _ Hw' (lookup_insert_eq _ _ _) Hparse).
    rewrite <- (sanitizeNotes_encode (notes s)) at 2 by assumption.
    unfold encode_notes. destruct (notes s); [contradiction | reflexivity]. }
  rewrite persist_run, Hws, (write_working _ payload) by assumption.
  eexists _, _. split; [reflexivity|]. cbn [world snd]. fold ls'.
  split; [exact Hnew|]. apply sortDescByUpdatedAt_Permutation.
Qed.

(** C4, amended. For a query whose trimmed form is not empty,
    [listNotes(query)] returns exactly the notes for which the lower-cased
    trimmed query is a substring of the lower-cased title, of the
    lower-cased content or of some lower-cased tag, in the order in which
    [listNotes()] lists them; the result is sorted descending by
    [updatedAt] when the [updatedAt] of every note is a date. *)
Theorem listNotes_query (query : string) (s : State) :
  trim query <> "" ->
  let q := toLowerCase (trim query) in
  (forall n, In n (listNotes (Some query) s) <-> In n (notes s) /\ matching q n)
  /\ listNotes (Some query) s = List.filter (matches q) (listNotes None s)
  /\ (Forall dated (notes s) -> Sorted newer_or_equal (listNotes (Some query) s)).
Proof.
  intros Hq q. rewrite listNotes_query_run by assumption. fold q.
  split; [|split].
  - intros n. rewrite filter_In, matches_spec. unfold listNotes.
    rewrite sortDescByUpdatedAt_In. reflexivity.
  - reflexivity.
  - intros Hd. apply filter_Sorted, sortDescByUpdatedAt_Sorted, Hd.
Qed.

(** C5, amended. When the [updatedAt] of every note is a date,
    [listNotes()] returns all the notes, in an order in which the
    timestamp of [a.updatedAt] is greater than or equal to that of
    [b.updatedAt] for every adjacent pair (a, b). *)
Theorem listNotes_sorted (s : State) :
  Forall dated (notes s) ->
  Permutation (listNotes None s) (notes s)
  /\ Sorted newer_or_equal (listNotes None s).
Proof.
  intros Hd. split.
  - apply sortDescByUpdatedAt_Permutation.
  - apply sortDescByUpdatedAt_Sorted, Hd.
Qed.

(** C6. When no note of the collection has the id of the note passed to
    [updateNote], the call throws the error "Note not found" and the
    state is what it was: the collection is unchanged and the store has
    not been called. *)
Theorem updateNote_not_found (now : Z) (note : Note) (s : State) :
  (forall n, In n (notes s) -> id n <> id note) ->
  updateNote now note s = (inl (Thrown "Error" "Note not found"), s).
Proof.
  intros Hno. unfold updateNote, bind, get_notes, throw.
  rewrite findIndex_None; [reflexivity|].
  intros n Hn. apply bool_decide_eq_false_2, Hno, Hn.
Qed.

(** C7. When no note of the collection has the id passed to
    [deleteNote], the call returns without an error and the state is what
    it was: the collection is unchanged and the store has not been
    called, so nothing is written. *)
Theorem deleteNote_absent (i : string) (s : State) :
  (forall n, In n (notes s) -> id n <> i) ->
  deleteNote i s = (inr tt, s).
Proof.
  intros Hno. unfold deleteNote, bind, get_notes, set_notes, ret; simpl.
  rewrite filter_all.
  - rewrite Nat.eqb_refl. destruct s; reflexivity.
  - intros n Hn. rewrite bool_decide_eq_false_2 by (apply Hno, Hn). reflexivity.
Qed.

(** C9. For every payload and every state, when the id that [createNote]
    generates is new to the collection, [createNote] returns a note, and
    [getNote] with the id of that note returns the same note: its title
    is that of the payload, its content and tags are those of the payload
    or, when omitted, the empty string and the empty sequence, and its
    [createdAt] equals its [updatedAt]. *)
Theorem createNote_getNote (now : Z) (e : Entropy) (payload : Payload) (s : State) :
  (forall n, In n (notes s) -> id n <> generateId e) ->
  exists note s',
    createNote now e payload s = (inr note, s')
    /\ id note = generateId e
    /\ getNote (id note) s' = Some note
    /\ title note = payload_title payload
    /\ content note = default "" (payload_content payload)
    /\ tags note = default [] (payload_tags payload)
    /\ createdAt note = updatedAt note.
Proof.
  intros Hfresh. unfold createNote, bind, get_notes, set_notes, ret; simpl.
  rewrite persist_run; simpl.
  eexists _, _. split; [reflexivity|]. simpl.
  repeat split. unfold getNote; simpl.
  apply find_unique.
  - apply sortDescByUpdatedAt_In. left. reflexivity.
  - apply bool_decide_eq_true_2. reflexivity.
  - intros b Hb Hid. apply (proj1 (sortDescByUpdatedAt_In _ _)) in Hb.
    apply in_inv in Hb as [<- | Hb]; [reflexivity|].
    apply bool_decide_eq_true_1 in Hid. exfalso. exact (Hfresh b Hb Hid).
Qed.

(** C10. For a query made of whitespace only, [listNotes(query)] returns
    what [listNotes()] returns: all the notes, in the order that
    [sortDescByUpdatedAt] gives them (descending by [updatedAt] when the
    [updatedAt] of every note is a date), none filtered out. *)
Theorem listNotes_blank_query (query : string) (s : State) :
  all_ws query ->
  listNotes (Some query) s = listNotes None s
  /\ listNotes (Some query) s = sortDescByUpdatedAt (notes s)
  /\ Permutation (listNotes (Some query) s) (notes s)
  /\ (Forall dated (notes s) -> Sorted newer_or_equal (listNotes (Some query) s)).
Proof.
  intros Hq.
  assert (Heq : listNotes (Some query) s = sortDescByUpdatedAt (notes s)).
  { unfold listNotes. destruct (truthy query); simpl; [|reflexivity].
    rewrite toLowerCase_all_ws, trim_all_ws by assumption. reflexivity. }
  rewrite Heq. repeat split.
  - apply sortDescByUpdatedAt_Permutation.
  - apply sortDescByUpdatedAt_Sorted.
Qed.

(** The operations keep the notes dated, on a runtime whose clock reading
    prints as a date: only the store can bring in a note that is not. *)
Lemma createNote_dated (now : Z) (e : Entropy) (payload : Payload) (s : State) :
  toISOString now <> "" -> is_Some (Date_parse (toISOString now)) ->
  Forall dated (notes s) ->
  Forall dated (notes (snd (createNote now e payload s))).
Proof.
  intros Hne Hd Hs. unfold createNote, bind, get_notes, set_notes, ret; simpl.
  rewrite persist_run; simpl.
  eapply Permutation_Forall; [symmetry; apply sortDescByUpdatedAt_Permutation|].
  constructor; [split; assumption | exact Hs].
Qed.

Lemma updateNote_dated (now : Z) (note : Note) (s : State) :
  toISOString now <> "" -> is_Some (Date_parse (toISOString now)) ->
  Forall dated (notes s) ->
  Forall dated (notes (snd (updateNote now note s))).
Proof.
  intros Hne Hd Hs. unfold updateNote, bind, get_notes, set_notes, ret, throw.
  destruct (Array.findIndex _ (notes s)) as [idx|]; [|exact Hs].
  rewrite persist_run. cbn [snd notes].
  eapply Permutation_Forall; [symmetry; apply sortDescByUpdatedAt_Permutation|].
  apply Forall_insert; [exact Hs | split; assumption].
Qed.

Lemma deleteNote_dated (i : string) (s : State) :
  Forall dated (notes s) -> Forall dated (notes (snd (deleteNote i s))).
Proof.
  intros Hs. unfold deleteNote, bind, get_notes, set_notes, ret; simpl.
  assert (Hf : Forall dated (List.filter (fun n => negb (bool_decide (id n = i))) (notes s))).
  { rewrite List.Forall_forall in *. intros n Hn. apply filter_In in Hn. apply Hs, Hn. }
  destruct (negb _); [rewrite persist_run|]; exact Hf.
Qed.

End Repository.

(** ** Where the code departs from the specification *)

Section Counterexamples.
Import Note NotesService Sample.
#[local] Existing Instance Reference.platform.

(** C1 fails: [updateNote] stores the [createdAt] of its argument. The
    collection holds the note "Shopping", created on 2023-11-01; the same
    note is passed with a [createdAt] of 2001-01-01; the note stored
    afterwards has the latter. *)
Lemma updateNote_createdAt_counterexample :
  getNote (id shopping_edit) one_note = Some shopping
  /\ exists updated s',
      updateNote (t0 + 60000) shopping_edit one_note = (inr updated, s')
      /\ getNote (id shopping) s' = Some updated
      /\ createdAt updated = "2001-01-01T00:00:00.000Z"
      /\ createdAt updated <> createdAt shopping.
Proof.
  split; [reflexivity|]. eexists _, _.
  split; [vm_compute; reflexivity|]. split; [vm_compute; reflexivity|].
  split; [reflexivity|]. vm_compute. discriminate.
Qed.

(** C2 fails: the store holds the JSON text of a sequence with one
    element, an object without fields; it decodes, sanitization drops the
    element, and the constructor leaves the collection empty and writes
    nothing: the one call to the store is the [getItem] of the read. *)
Lemma constructor_no_seed_counterexample :
  JSON_parse "[{}]" = inr (JArr [JObj []])
  /\ sanitizeNotes (JArr [JObj []]) = []
  /\ NotesService.new t0 e1 e2 (browser {[ storageKey := "[{}]" ]})
     = (inr tt, {| notes := [];
                   world := GlobalThis (Present (logged (GetItem storageKey)
                              (local_storage {[ storageKey := "[{}]" ]}))) |}).
Proof. repeat split; vm_compute; reflexivity. Qed.

(** C3 fails: after the first run, [createNote] is given an empty title;
    the collection of three notes is persisted; the constructor, run
    again on the store, does not reseed and drops the note without a
    title. *)
Lemma persist_reload_counterexample :
  exists created s1 s2,
    createNote (t0 + 300000) e3 untitled seeded = (inr created, after_create)
    /\ In created (notes after_create)
    /\ persist after_create = (inr tt, s1)
    /\ NotesService.new (t0 + 600000) e1 e2 (world s1) = (inr tt, s2)
    /\ map title (notes s2) = ["Tips"; "Welcome to Notes"]
    /\ ~ In created (notes s2)
    /\ ~ Permutation (notes s2) (notes after_create).
Proof.
  eexists _, _, _.
  split; [vm_compute; reflexivity|].
  split; [vm_compute; tauto|].
  split; [vm_compute; reflexivity|].
  split; [vm_compute; reflexivity|].
  split; [vm_compute; reflexivity|].
  split.
  - vm_compute. intros [Hn | [Hn | []]]; discriminate Hn.
  - intros Hp. apply Permutation_length in Hp. vm_compute in Hp. discriminate Hp.
Qed.

(** With a note whose [updatedAt] is not a date, no arrangement of the
    two stored notes is in order. *)
Lemma undated_never_sorted (l : list Note) :
  Permutation [undated; shopping] l -> ~ Sorted newer_or_equal l.
Proof.
  intros Hp. apply Permutation_length_2_inv in Hp as [-> | ->];
    apply not_Sorted_head; vm_compute; tauto.
Qed.

(** C4 fails: the store holds two notes that both match the query, one
    of them with the [updatedAt] "unknown", which sanitization keeps;
    the result holds both, and the timestamp of "unknown", [NaN], is
    neither greater than nor equal to that of the other note. *)
Lemma listNotes_query_counterexample :
  trim "Shop " <> ""
  /\ notes with_undated = [undated; shopping]
  /\ listNotes (Some "Shop ") with_undated = [undated; shopping]
  /\ ~ Sorted newer_or_equal (listNotes (Some "Shop ") with_undated).
Proof.
  assert (Hl : listNotes (Some "Shop ") with_undated = [undated; shopping])
    by (vm_compute; reflexivity).
  split; [vm_compute; discriminate|].
  split; [vm_compute; reflexivity|].
  split; [exact Hl|]. rewrite Hl. apply undated_never_sorted. reflexivity.
Qed.

(** C5 fails: on the same state [listNotes()] returns the note with the
    [updatedAt] "unknown" first; the adjacent pair is not in order, and
    no arrangement of the two notes is. *)
Lemma listNotes_sorted_counterexample :
  listNotes None with_undated = [undated; shopping]
  /\ ~ Sorted newer_or_equal (listNotes None with_undated)
  /\ forall l, Permutation (notes with_undated) l -> ~ Sorted newer_or_equal l.
Proof.
  assert (Hl : listNotes None with_undated = [undated; shopping])
    by (vm_compute; reflexivity).
  assert (Hn : notes with_undated = [undated; shopping]) by (vm_compute; reflexivity).
  split; [exact Hl|]. split.
  - rewrite Hl. apply undated_never_sorted. reflexivity.
  - rewrite Hn. exact undated_never_sorted.
Qed.

(** C9 fails: the store holds one note, which carries the id that
    [generateId] gives next and an [updatedAt] later than the clock;
    [createNote] adds a second note with that id, the sort leaves the
    stored note first, and [getNote] with the id of the created note
    returns the stored note, with another title, content and tags, and
    a [createdAt] that differs from its [updatedAt]. *)
Lemma createNote_getNote_counterexample :
  notes with_taken = [taken]
  /\ generateId e3 = id taken
  /\ exists note s' found,
      createNote (t0 + 300000) e3 errand with_taken = (inr note, s')
      /\ notes s' = [taken; note]
      /\ title note = "Errand" /\ content note = "call the plumber" /\ tags note = []
      /\ getNote (id note) s' = Some found
      /\ found = taken
      /\ title found <> title note
      /\ content found <> content note
      /\ tags found <> tags note
      /\ createdAt found <> updatedAt found.
Proof.
  split; [vm_compute; reflexivity|]. split; [vm_compute; reflexivity|].
  eexists _, _, taken.
  split; [vm_compute; reflexivity|].
  split; [vm_compute; reflexivity|].
  split; [reflexivity|]. split; [reflexivity|]. split; [reflexivity|].
  split; [vm_compute; reflexivity|].
  split; [reflexivity|].
  repeat split; vm_compute; discriminate.
Qed.

(** C10 fails: on the state with the [updatedAt] "unknown", a query of
    three spaces returns what [listNotes()] returns, the note with
    "unknown" first; the result is not in descending order, and no
    arrangement of the two notes is. *)
Lemma listNotes_blank_query_counterexample :
  all_ws "   "
  /\ listNotes (Some "   ") with_undated = listNotes None with_undated
  /\ listNotes (Some "   ") with_undated = [undated; shopping]
  /\ ~ Sorted newer_or_equal (listNotes (Some "   ") with_undated)
  /\ forall l, Permutation (listNotes (Some "   ") with_undated) l ->
               ~ Sorted newer_or_equal l.
Proof.
  assert (Hl : listNotes (Some "   ") with_undated = [undated; shopping])
    by (vm_compute; reflexivity).
  split; [repeat constructor|].
  split; [vm_compute; reflexivity|].
  split; [exact Hl|]. rewrite Hl. split.
  - apply undated_never_sorted. reflexivity.
  - exact undated_never_sorted.
Qed.

End Counterexamples.

(** ** The theorems at concrete inputs *)

Section Witnesses.
Import Note NotesService Sample.
#[local] Existing Instance Reference.platform.

(** C1 on the note "Shopping" passed with another [createdAt]. *)
Lemma updateNote_stored_witness :
  getNote (id shopping_edit) one_note = Some shopping
  /\ exists updated s',
      updateNote (t0 + 60000) shopping_edit one_note = (inr updated, s')
      /\ In updated (notes s')
      /\ id updated = id shopping
      /\ createdAt updated = createdAt shopping_edit
      /\ updatedAt updated = "2023-11-14T22:14:20.000Z"
      /\ newer_or_equal updated shopping.
Proof.
  split; [reflexivity|].
  destruct (updateNote_stored (t0 + 60000) shopping_edit shopping one_note eq_refl)
    as (updated & s' & Hrun & Hin & Hid & Hc & Hu & Hge).
  exists updated, s'.
  split; [exact Hrun|]. split; [exact Hin|]. split; [exact Hid|]. split; [exact Hc|].
  split; [rewrite Hu; vm_compute; reflexivity|].
  apply (Hge 1698917400000); [vm_compute; reflexivity | unfold t0; lia |].
  vm_compute. reflexivity.
Defined.

(** C2 on a store that holds the text of the empty sequence. *)
Lemma constructor_seeding_witness :
  working (local_storage {[ storageKey := "[]" ]})
  /\ items (local_storage {[ storageKey := "[]" ]}) !! storageKey = Some "[]"
  /\ JSON_parse "[]" = inr (JArr [])
  /\ sanitizeNotes (JArr []) = []
  /\ exists s,
      NotesService.new t0 e1 e2 (browser {[ storageKey := "[]" ]}) = (inr tt, s)
      /\ map title (notes s) = ["Tips"; "Welcome to Notes"].
Proof.
  assert (Hw : working (local_storage {[ storageKey := "[]" ]})) by (repeat split).
  assert (Hk : items (local_storage {[ storageKey := "[]" ]}) !! storageKey = Some "[]")
    by (vm_compute; reflexivity).
  assert (Hv : JSON_parse "[]" = inr (JArr [])) by (vm_compute; reflexivity).
  repeat (split; [assumption || reflexivity|]).
  destruct (constructor_seeding t0 e1 e2 _ _ _ Hw Hk Hv eq_refl) as (s & Hs & _).
  exists s. split; [exact Hs|].
  vm_compute in Hs. injection Hs as <-. reflexivity.
Defined.

(** C3 on the two seed notes. *)
Lemma persist_reload_witness :
  world seeded = GlobalThis (Present seeded_storage)
  /\ working seeded_storage
  /\ notes seeded <> []
  /\ Forall complete (notes seeded)
  /\ exists s1 s2,
      persist seeded = (inr tt, s1)
      /\ NotesService.new (t0 + 600000) e1 e2 (world s1) = (inr tt, s2)
      /\ Permutation (notes s2) (notes seeded).
Proof.
  assert (Hws : world seeded = GlobalThis (Present seeded_storage))
    by (vm_compute; reflexivity).
  assert (Hw : working seeded_storage) by (repeat split).
  assert (Hne : notes seeded <> []) by (vm_compute; discriminate).
  assert (Hc : Forall complete (notes seeded))
    by (apply complete_forallb; vm_compute; reflexivity).
  repeat (split; [assumption|]).
  assert (Hp : JSON_stringify (encode_notes (notes seeded))
               = inr (Reference.stringify (encode_notes (notes seeded)))) by reflexivity.
  assert (Hq : over_quota (Reference.stringify (encode_notes (notes seeded))) seeded_storage
               = false) by (vm_compute; reflexivity).
  assert (Hr : JSON_parse (Reference.stringify (encode_notes (notes seeded)))
               = inr (encode_notes (notes seeded))) by (vm_compute; reflexivity).
  exact (persist_reload (t0 + 600000) e1 e2 seeded seeded_storage _ Hws Hw Hp Hq Hr Hne Hc).
Defined.

Lemma seeded_dated : Forall dated (notes seeded).
Proof. apply dated_forallb. vm_compute. reflexivity. Defined.

(** C4 on the seed notes and the query " TIP ". *)
Lemma listNotes_query_witness :
  trim " TIP " <> ""
  /\ (forall n, In n (listNotes (Some " TIP ") seeded)
                <-> In n (notes seeded) /\ matching "tip" n)
  /\ listNotes (Some " TIP ") seeded = List.filter (matches "tip") (listNotes None seeded)
  /\ Sorted newer_or_equal (listNotes (Some " TIP ") seeded).
Proof.
  assert (Hq : trim " TIP " <> "") by (vm_compute; discriminate).
  split; [exact Hq|].
  destruct (listNotes_query " TIP " seeded Hq) as (Hin & Heq & Hs).
  split; [exact Hin|]. split; [exact Heq | exact (Hs seeded_dated)].
Defined.

(** C5 on the seed notes. *)
Lemma listNotes_sorted_witness :
  Forall dated (notes seeded)
  /\ Permutation (listNotes None seeded) (notes seeded)
  /\ Sorted newer_or_equal (listNotes None seeded).
Proof. split; [exact seeded_dated | exact (listNotes_sorted seeded seeded_dated)]. Defined.

Lemma seeded_without (i : string) :
  forallb (fun n => negb (bool_decide (id n = i))) (notes seeded) = true ->
  forall n, In n (notes seeded) -> id n <> i.
Proof.
  rewrite forallb_forall. intros Hall n Hn. specialize (Hall n Hn).
  apply negb_true_iff, bool_decide_eq_false in Hall. exact Hall.
Defined.

(** C6 on the seed notes and a note that is not among them. *)
Lemma updateNote_not_found_witness :
  (forall n, In n (notes seeded) -> id n <> id shopping)
  /\ updateNote t0 shopping seeded = (inl (Thrown "Error" "Note not found"), seeded).
Proof.
  assert (Hno : forall n, In n (notes seeded) -> id n <> id shopping)
    by (apply seeded_without; vm_compute; reflexivity).
  split; [exact Hno | exact (updateNote_not_found t0 shopping seeded Hno)].
Defined.

(** C7 on the seed notes and an id that is not among theirs. *)
Lemma deleteNote_absent_witness :
  (forall n, In n (notes seeded) -> id n <> "1699990000000-a1b2c3")
  /\ deleteNote "1699990000000-a1b2c3" seeded = (inr tt, seeded).
Proof.
  assert (Hno : forall n, In n (notes seeded) -> id n <> "1699990000000-a1b2c3")
    by (apply seeded_without; vm_compute; reflexivity).
  split; [exact Hno | exact (deleteNote_absent _ seeded Hno)].
Defined.

(** C9 on the seed notes and a payload without tags. *)
Lemma createNote_getNote_witness :
  (forall n, In n (notes seeded) -> id n <> generateId e3)
  /\ exists note s',
      createNote (t0 + 300000) e3 untitled seeded = (inr note, s')
      /\ id note = generateId e3
      /\ getNote (id note) s' = Some note
      /\ title note = ""
      /\ content note = "call the plumber"
      /\ tags note = []
      /\ createdAt note = updatedAt note.
Proof.
  assert (Hno : forall n, In n (notes seeded) -> id n <> generateId e3)
    by (apply seeded_without; vm_compute; reflexivity).
  split; [exact Hno | exact (createNote_getNote (t0 + 300000) e3 untitled seeded Hno)].
Defined.

(** C10 on the seed notes and a query of three spaces. *)
Lemma listNotes_blank_query_witness :
  all_ws "   "
  /\ listNotes (Some "   ") seeded = listNotes None seeded
  /\ listNotes (Some "   ") seeded = sortDescByUpdatedAt (notes seeded)
  /\ Permutation (listNotes (Some "   ") seeded) (notes seeded)
  /\ Sorted newer_or_equal (listNotes (Some "   ") seeded).
Proof.
  assert (Hq : all_ws "   ") by (repeat constructor).
  split; [exact Hq|].
  destruct (listNotes_blank_query "   " seeded Hq) as (Heq & Hsort & Hperm & Hs).
  repeat (split; [assumption|]). exact (Hs seeded_dated).
Defined.

End Witnesses.

(** * More properties of the code *)

(** ** The storage adapter: what is stored *)

Section MoreAdapter.
Context `{Platform}.
Import StorageService.

(** X1. On a store that answers and has room, a value that the JSON codec
    gives back is read as it was written: [write] then [read] of the same
    key returns the value, and the store holds its JSON text. *)
Theorem write_read_roundtrip (key payload : string) (value : json) (ls : Storage) :
  working ls -> JSON_stringify value = inr payload -> over_quota payload ls = false ->
  JSON_parse payload = inr value ->
  exists w1 w2,
    write key value (GlobalThis (Present ls)) = (inr tt, w1)
    /\ read key w1 = (inr value, w2)
    /\ stored w2 = <[key := payload]> (items ls).
Proof.
  intros Hw Hs Hq Hp. rewrite (write_working _ payload) by assumption.
  eexists _, _. split; [reflexivity|].
  erewrite read_working; [split; reflexivity | | apply lookup_insert_eq | exact Hp].
  destruct Hw as (? & ? & ?). repeat split; assumption.
Qed.

(** X2. On a store that answers and has [removeItem], [remove] deletes
    the key and no other: a [read] of the key afterwards returns [null]. *)
Theorem remove_read (key : string) (ls : Storage) :
  working ls -> has_removeItem ls = true ->
  exists w1 w2,
    remove key (GlobalThis (Present ls)) = (inr tt, w1)
    /\ read key w1 = (inr JNull, w2)
    /\ stored w2 = delete key (items ls).
Proof.
  intros (Hg & Hs & Hf) Hr. run_adapter. rewrite Hg, Hs. simpl. rewrite Hr, Hf. simpl.
  eexists _, _. split; [reflexivity|]. simpl. rewrite Hg, Hs. simpl. rewrite Hg, Hf. simpl.
  rewrite lookup_delete_eq. split; reflexivity.
Qed.

(** X3. In every world, [read] leaves what is stored as it is; [write]
    either leaves it as it is (no store, a failed serialization, a call
    that throws) or sets its own key to the JSON text of the value and
    nothing else; [remove] either leaves it as it is or deletes its own
    key. *)
Theorem adapter_frame (key : string) (value : json) (w : World) :
  stored (snd (read key w)) = stored w
  /\ (stored (snd (write key value w)) = stored w
      \/ exists payload, JSON_stringify value = inr payload
                         /\ stored (snd (write key value w)) = <[key := payload]> (stored w))
  /\ (stored (snd (remove key w)) = stored w
      \/ stored (snd (remove key w)) = delete key (stored w)).
Proof.
  split; [|split]; run_adapter; destruct w as [|[| |ls]]; simpl; auto.
  - repeat branch; reflexivity.
  - repeat branch; eauto.
  - repeat branch; auto.
Qed.

End MoreAdapter.

(** ** Lists *)

Section MoreListFacts.
Context {A B : Type} (f : A -> B).

Lemma NoDup_map_eq (l : list A) (a b : A) :
  List.NoDup (map f l) -> In a l -> In b l -> f a = f b -> a = b.
Proof.
  induction l as [|c l IH]; simpl; [contradiction|].
  intros Hnd Ha Hb Hab. apply List.NoDup_cons_iff in Hnd as [Hc Hnd].
  destruct Ha as [-> | Ha], Hb as [-> | Hb]; auto.
  - exfalso. apply Hc. rewrite Hab. apply in_map, Hb.
  - exfalso. apply Hc. rewrite <- Hab. apply in_map, Ha.
Qed.

Lemma map_insert_same (l : list A) (idx : nat) (old u : A) :
  l !! idx = Some old -> f u = f old -> map f (<[idx := u]> l) = map f l.
Proof.
  revert idx. induction l as [|c l IH]; intros [|idx]; simpl; try discriminate.
  - intros [= ->] ->. reflexivity.
  - intros Hl Hu. f_equal. apply IH; assumption.
Qed.

Lemma NoDup_map_filter (p : A -> bool) (l : list A) :
  List.NoDup (map f l) -> List.NoDup (map f (List.filter p l)).
Proof.
  induction l as [|c l IH]; simpl; [auto|].
  intros Hnd. apply List.NoDup_cons_iff in Hnd as [Hc Hnd].
  destruct (p c); simpl; [|auto].
  constructor; [|auto]. intros Hin. apply Hc.
  apply in_map_iff in Hin as (x & Hx & Hin). apply filter_In in Hin as [Hin _].
  rewrite <- Hx. apply in_map, Hin.
Qed.

Lemma find_insert_other (p : A -> bool) (l : list A) (idx : nat) (old u : A) :
  l !! idx = Some old -> p old = false -> p u = false ->
  find p (<[idx := u]> l) = find p l.
Proof.
  revert idx. induction l as [|c l IH]; intros [|idx]; simpl; try discriminate.
  - intros [= ->] -> ->. reflexivity.
  - intros Hl Ho Hu. destruct (p c); [reflexivity|]. apply IH; assumption.
Qed.

Lemma find_filter_other (p q : A -> bool) (l : list A) :
  (forall a, p a = true -> q a = true) -> find p (List.filter q l) = find p l.
Proof.
  intros Hpq. induction l as [|c l IH]; simpl; [reflexivity|].
  destruct (q c) eqn:Hq; simpl.
  - destruct (p c); [reflexivity | exact IH].
  - destruct (p c) eqn:Hp; [|exact IH]. rewrite (Hpq c Hp) in Hq. discriminate.
Qed.

Lemma find_filter_none (p : A -> bool) (l : list A) :
  find p (List.filter (fun a => negb (p a)) l) = None.
Proof.
  induction l as [|c l IH]; simpl; [reflexivity|].
  destruct (p c) eqn:Hp; simpl; [exact IH|]. rewrite Hp. exact IH.
Qed.

Lemma filter_length_find (p : A -> bool) (l : list A) :
  find p l <> None -> length (List.filter (fun a => negb (p a)) l) <> length l.
Proof.
  intros Hf Hlen. apply Hf. clear Hf.
  induction l as [|c l IH]; simpl in *; [reflexivity|].
  pose proof (filter_length_le (fun a => negb (p a)) l) as Hle.
  destruct (p c); simpl in Hlen; [lia|]. apply IH. lia.
Qed.

End MoreListFacts.

(** ** The note repository: construction, order, identity, mirror *)

Section MoreRepository.
Context `{Platform}.
Import Note NotesService.
#[local] Arguments sortDescByUpdatedAt : simpl never.

Lemma read_decodes (key : string) (w : World) (v : json) :
  decodes_to key w v -> fst (StorageService.read key w) = inr v.
Proof.
  intros (ls & raw & -> & Hw & Hk & Hv). rewrite (read_working _ _ _ _ Hw Hk Hv). reflexivity.
Qed.

Lemma constructor_run (now : Z) (e1 e2 : Entropy) (w : World) (v : json) :
  fst (StorageService.read storageKey w) = inr v ->
  exists w',
    new now e1 e2 w
    = (inr tt, {| notes := if nonempty_array v
                           then sortDescByUpdatedAt (sanitizeNotes v)
                           else seedNotes now e1 e2;
                  world := w' |}).
Proof.
  unfold new, constructor, bind at 1, liftW. cbn [world notes].
  destruct (StorageService.read storageKey w) as [r w1]. simpl. intros ->.
  destruct v as [| | | |[|x xs]|]; simpl nonempty_array; cbn iota;
    try (unfold bind, set_notes; rewrite persist_run; cbn [notes world]; eauto).
  unfold set_notes. cbn [world]. eauto.
Qed.

(** X4. The constructor falls back to the seed notes whenever the store
    gives no collection: when it is unavailable, when the key is absent,
    when the payload is not JSON, and when the payload decodes to
    anything but a non-empty array. It does not throw, and the collection
    is the two seed notes. *)
Theorem constructor_fallback (now : Z) (e1 e2 : Entropy) (w : World) :
  store_unavailable w \/ key_absent storageKey w \/ payload_undecodable storageKey w
  \/ (exists v, decodes_to storageKey w v /\ nonempty_array v = false) ->
  exists s,
    new now e1 e2 w = (inr tt, s)
    /\ notes s = seedNotes now e1 e2
    /\ Permutation (map title (notes s)) ["Welcome to Notes"; "Tips"].
Proof.
  intros Hw.
  assert (Hr : exists v, fst (StorageService.read storageKey w) = inr v
                         /\ nonempty_array v = false).
  { destruct Hw as [Hu | [Ha | [Hp | (v & Hd & Hn)]]].
    - exists JNull. split; [apply read_null; auto | reflexivity].
    - exists JNull. split; [apply read_null; auto | reflexivity].
    - exists JNull. split; [apply read_null; auto | reflexivity].
    - exists v. split; [apply read_decodes, Hd | exact Hn]. }
  destruct Hr as (v & Hr & Hn).
  destruct (constructor_run now e1 e2 w v Hr) as [w' Hrun]. rewrite Hn in Hrun.
  eexists. split; [exact Hrun|]. cbn [notes]. split; [reflexivity|].
  unfold seedNotes. rewrite sortDescByUpdatedAt_Permutation. reflexivity.
Qed.

Lemma sanitizeNote_encode_complete (n : Note) :
  sanitizeNote (encode_note n) = if is_complete n then Some n else None.
Proof.
  destruct n as [i t c g ca ua]. unfold sanitizeNote, is_complete; simpl.
  destruct (truthy i), (truthy t), (truthy ca), (truthy ua); simpl; try reflexivity.
  rewrite map_String_JStr. reflexivity.
Qed.



(** Sorting a list that is in order changes nothing. *)
Lemma sort_ordered (l : list Note) :
  Forall dated l -> Sorted newer_or_equal l -> sortDescByUpdatedAt l = l.
Proof.
  unfold sortDescByUpdatedAt. intros Hd Hs. induction Hs as [|a l Hs IH Ha]; [reflexivity|].
  apply Forall_cons_1 in Hd as [Hda Hdl]. simpl. rewrite IH by assumption.
  destruct Ha as [|b l Hab]; [reflexivity|]. simpl.
  apply Forall_cons_1 in Hdl as [Hdb _].
  unfold Array.sorts_after, compareFn. rewrite !sortKey_dated by assumption.
  unfold newer_or_equal in Hab.
  destruct (timestamp a) as [ta|], (timestamp b) as [tb|]; try contradiction.
  destruct (0 <? tb - ta) eqn:Hlt; [lia | reflexivity].
Qed.

Lemma createNote_run (now : Z) (e : Entropy) (payload : Payload) (s : State) :
  let note := {| id := generateId e; title := payload_title payload;
                 content := default "" (payload_content payload);
                 tags := default [] (payload_tags payload);
                 createdAt := toISOString now; updatedAt := toISOString now |} in
  createNote now e payload s
  = (inr note,
     {| notes := sortDescByUpdatedAt (note :: notes s);
        world := snd (StorageService.write storageKey
                        (encode_notes (sortDescByUpdatedAt (note :: notes s))) (world s)) |}).
Proof.
  unfold createNote, bind, get_notes, set_notes, ret; simpl. rewrite persist_run. reflexivity.
Qed.

Lemma updateNote_run (now : Z) (note : Note) (s : State) (idx : nat) :
  Array.findIndex (fun n => bool_decide (id n = id note)) (notes s) = Some idx ->
  let updated := with_updatedAt (toISOString now) (spread (notes s !! idx) note) in
  updateNote now note s
  = (inr updated,
     {| notes := sortDescByUpdatedAt (<[idx := updated]> (notes s));
        world := snd (StorageService.write storageKey
                        (encode_notes (sortDescByUpdatedAt (<[idx := updated]> (notes s))))
                        (world s)) |}).
Proof.
  intros Hidx. unfold updateNote, bind, get_notes, set_notes, ret. rewrite Hidx, persist_run.
  reflexivity.
Qed.

Lemma updateNote_missing (now : Z) (note : Note) (s : State) :
  getNote (id note) s = None ->
  updateNote now note s = (inl (Thrown "Error" "Note not found"), s).
Proof.
  intros Hg. unfold updateNote, bind, get_notes, throw.
  rewrite findIndex_None; [reflexivity|].
  intros n Hn. unfold getNote in Hg. eapply find_none in Hg; [|exact Hn]. exact Hg.
Qed.

Lemma deleteNote_run (i : string) (s : State) :
  exists w',
    deleteNote i s
    = (inr tt, {| notes := List.filter (fun n => negb (bool_decide (id n = i))) (notes s);
                  world := w' |}).
Proof.
  unfold deleteNote, bind, get_notes, set_notes, ret; simpl.
  destruct (negb _); [rewrite persist_run|]; simpl; eauto.
Qed.

(** X6. On a runtime whose clock reading prints as a date, [createNote],
    [updateNote] and [deleteNote] keep the collection in order: every
    [updatedAt] a date, the dates descending. *)
Theorem operations_keep_order (now : Z) (e : Entropy) (payload : Payload) (note : Note)
    (i : string) (s : State) :
  clock_ok now -> ordered s ->
  ordered (snd (createNote now e payload s))
  /\ ordered (snd (updateNote now note s))
  /\ ordered (snd (deleteNote i s)).
Proof.
  intros [Hne Hp] [Hd Hs].
  assert (Hsome : is_Some (Date_parse (toISOString now))) by (rewrite Hp; eauto).
  assert (Hsorted : forall l, Forall dated (sortDescByUpdatedAt l) ->
                              Sorted newer_or_equal (sortDescByUpdatedAt l)).
  { intros l Hl. apply sortDescByUpdatedAt_Sorted.
    eapply Permutation_Forall; [apply sortDescByUpdatedAt_Permutation | exact Hl]. }
  split; [|split].
  - pose proof (createNote_dated now e payload s Hne Hsome Hd) as Hd'.
    rewrite createNote_run in Hd' |- *. cbn [snd notes] in *.
    split; [exact Hd' | apply Hsorted, Hd'].
  - pose proof (updateNote_dated now note s Hne Hsome Hd) as Hd'.
    destruct (Array.findIndex (fun n => bool_decide (id n = id note)) (notes s))
      as [idx|] eqn:Hidx.
    + rewrite (updateNote_run _ _ _ _ Hidx) in Hd' |- *. cbn [snd notes] in *.
      split; [exact Hd' | apply Hsorted, Hd'].
    + unfold updateNote, bind, get_notes, throw. rewrite Hidx. split; assumption.
  - destruct (deleteNote_run i s) as [w' ->]. cbn [snd notes]. split.
    + rewrite List.Forall_forall in *. intros n Hn. apply filter_In in Hn. apply Hd, Hn.
    + apply filter_Sorted, Hs.
Qed.

(** X7. When the collection is in order, [listNotes()] returns it as it
    is stored: the sort of the list moves nothing. *)
Theorem listNotes_ordered (s : State) :
  ordered s -> listNotes None s = notes s.
Proof. intros [Hd Hs]. apply sort_ordered; assumption. Qed.

Lemma insert_filter (p : Note -> bool) (a : Note) (l : list Note) :
  (forall b, In b l -> Array.sorts_after compareFn a b = true -> p a = true -> p b = false) ->
  List.filter p (Array.insert compareFn a l) = List.filter p (a :: l).
Proof.
  induction l as [|b l IH]; intros Hp; [reflexivity|]. simpl.
  destruct (Array.sorts_after compareFn a b) eqn:Hab; [|reflexivity].
  simpl. rewrite IH by (intros c Hc; apply Hp; right; exact Hc). simpl.
  destruct (p a) eqn:Hpa; [|reflexivity].
  rewrite (Hp b) by (auto; left; reflexivity). reflexivity.
Qed.

(** X8. The sort is stable on dated notes: the notes that carry the same
    timestamp come out of [sortDescByUpdatedAt] in the order in which
    they went in. *)
Theorem sort_stable (t : Z) (l : list Note) :
  Forall dated l ->
  List.filter (has_timestamp t) (sortDescByUpdatedAt l) = List.filter (has_timestamp t) l.
Proof.
  unfold sortDescByUpdatedAt. induction l as [|a l IH]; intros Hd; [reflexivity|].
  apply Forall_cons_1 in Hd as [Ha Hl]. simpl Array.sort.
  rewrite insert_filter.
  - simpl. rewrite IH by assumption. reflexivity.
  - intros b Hb Hab Hpa. apply sort_In in Hb.
    rewrite List.Forall_forall in Hl. specialize (Hl b Hb).
    unfold Array.sorts_after, compareFn in Hab. rewrite !sortKey_dated in Hab by assumption.
    unfold has_timestamp in *. apply bool_decide_eq_true_1 in Hpa. rewrite Hpa in Hab.
    apply bool_decide_eq_false_2. intros Hb'. rewrite Hb' in Hab.
    apply Z.ltb_lt in Hab. lia.
Qed.

(** X9. [createNote] does not throw, whatever the store does; it adds the
    note it returns and keeps every other note: the collection grows by
    exactly one. *)
Theorem createNote_adds_one (now : Z) (e : Entropy) (payload : Payload) (s : State) :
  exists note s',
    createNote now e payload s = (inr note, s')
    /\ Permutation (notes s') (note :: notes s)
    /\ length (notes s') = S (length (notes s)).
Proof.
  rewrite createNote_run. eexists _, _. split; [reflexivity|]. cbn [notes].
  match goal with |- Permutation (sortDescByUpdatedAt ?l) _ /\ _ =>
    pose proof (sortDescByUpdatedAt_Permutation l) as Hp end.
  split; [exact Hp|]. apply Permutation_length in Hp. exact Hp.
Qed.

(** A note stamped [now] stays in front of a collection in order that
    holds nothing dated after [now]. *)
Lemma sort_cons_top (now : Z) (note : Note) (l : list Note) :
  clock_ok now -> updatedAt note = toISOString now ->
  Forall dated l -> Sorted newer_or_equal l -> not_after now l ->
  sortDescByUpdatedAt (note :: l) = note :: l.
Proof.
  intros [Hne Hp] Hu Hd Hs Hle.
  assert (Hdn : dated note)
    by (split; [rewrite Hu; exact Hne | unfold timestamp; rewrite Hu, Hp; eauto]).
  apply sort_ordered; [constructor; assumption|].
  constructor; [assumption|]. destruct l as [|b l]; constructor.
  apply Forall_cons_1 in Hd as [[_ [tb Hb]] _].
  unfold newer_or_equal. unfold timestamp at 1. rewrite Hu, Hp, Hb.
  apply (Hle b tb); [left; reflexivity | exact Hb].
Qed.

(** X10. When the collection is in order and none of its notes is dated
    after the clock reading, the note that [createNote] adds is the first
    of the collection and of [listNotes()], the others following as they
    were. *)
Theorem createNote_on_top (now : Z) (e : Entropy) (payload : Payload) (s : State) :
  clock_ok now -> ordered s -> not_after now (notes s) ->
  exists note s',
    createNote now e payload s = (inr note, s')
    /\ notes s' = note :: notes s
    /\ listNotes None s' = note :: listNotes None s.
Proof.
  intros Hc [Hd Hs] Hle. rewrite createNote_run. cbv zeta.
  match goal with |- context [sortDescByUpdatedAt (?n :: notes s)] =>
    assert (Heq : sortDescByUpdatedAt (n :: notes s) = n :: notes s)
      by (apply (sort_cons_top now); [exact Hc | reflexivity | exact Hd | exact Hs | exact Hle])
  end.
  eexists _, _. split; [reflexivity|]. cbn [notes].
  unfold listNotes. cbn [notes]. rewrite !Heq, (sort_ordered _ Hd Hs).
  split; reflexivity.
Qed.

(** X11. Under the same conditions and with an id that is new to the
    collection, deleting the note that [createNote] returned gives back
    the collection as it was before the note was created. *)
Theorem createNote_deleteNote (now : Z) (e : Entropy) (payload : Payload) (s : State) :
  clock_ok now -> ordered s -> not_after now (notes s) ->
  (forall n, In n (notes s) -> id n <> generateId e) ->
  exists note s1 s2,
    createNote now e payload s = (inr note, s1)
    /\ deleteNote (id note) s1 = (inr tt, s2)
    /\ notes s2 = notes s.
Proof.
  intros Hc [Hd Hs] Hle Hfresh. rewrite createNote_run. cbv zeta.
  match goal with |- context [sortDescByUpdatedAt (?n :: notes s)] =>
    assert (Heq : sortDescByUpdatedAt (n :: notes s) = n :: notes s)
      by (apply (sort_cons_top now); [exact Hc | reflexivity | exact Hd | exact Hs | exact Hle])
  end.
  rewrite !Heq.
  match goal with |- exists note s1 s2, (_, ?st) = _ /\ _ =>
    destruct (deleteNote_run (generateId e) st) as [w' Hrun] end.
  cbn [notes id] in Hrun.
  eexists _, _, _. split; [reflexivity|]. cbn [id].
  cbn [List.filter id] in Hrun.
  rewrite bool_decide_eq_true_2 in Hrun by reflexivity. cbn [negb] in Hrun.
  rewrite filter_all in Hrun
    by (intros n Hn; rewrite bool_decide_eq_false_2 by (apply Hfresh, Hn); reflexivity).
  split; [exact Hrun | reflexivity].
Qed.

Lemma find_id_Permutation (j : string) (l1 l2 : list Note) :
  List.NoDup (map id l1) -> Permutation l1 l2 ->
  find (fun n => bool_decide (id n = j)) l1 = find (fun n => bool_decide (id n = j)) l2.
Proof.
  intros Hnd Hp.
  assert (Hnd2 : List.NoDup (map id l2)).
  { eapply Permutation_NoDup; [apply Permutation_map, Hp | exact Hnd]. }
  destruct (find _ l1) as [m|] eqn:Hf.
  - apply find_some in Hf as [Hin Hid]. symmetry. apply find_unique.
    + eapply Permutation_in; eassumption.
    + exact Hid.
    + intros b Hb Hbj. apply bool_decide_eq_true_1 in Hid, Hbj.
      apply (NoDup_map_eq id l2); try assumption; [|congruence].
      eapply Permutation_in; eassumption.
  - destruct (find _ l2) as [m|] eqn:Hf2; [|reflexivity].
    apply find_some in Hf2 as [Hin Hid].
    eapply find_none in Hf; [|eapply Permutation_in; [symmetry; exact Hp | exact Hin]].
    simpl in Hf. congruence.
Qed.

(** [updateNote] on a collection without two notes of the same id. *)
Lemma updateNote_unique (now : Z) (note old : Note) (s : State) :
  List.NoDup (map id (notes s)) -> getNote (id note) s = Some old ->
  exists updated s',
    updateNote now note s = (inr updated, s')
    /\ updated = with_updatedAt (toISOString now) note
    /\ getNote (id note) s' = Some updated
    /\ (forall j, j <> id note -> getNote j s' = getNote j s)
    /\ length (notes s') = length (notes s)
    /\ List.NoDup (map id (notes s')).
Proof.
  intros Hnd Hold. unfold getNote in Hold.
  apply findIndex_find in Hold as (idx & Hidx & Hl & Hid).
  apply bool_decide_eq_true_1 in Hid.
  rewrite (updateNote_run _ _ _ _ Hidx). cbv zeta.
  set (updated := with_updatedAt (toISOString now) (spread (notes s !! idx) note)).
  set (l' := <[idx := updated]> (notes s)).
  eexists _, _. split; [reflexivity|]. cbn [notes].
  assert (Hids : map id l' = map id (notes s))
    by (apply (map_insert_same id _ _ old); [exact Hl | simpl; congruence]).
  assert (Hnd' : List.NoDup (map id l')) by (rewrite Hids; exact Hnd).
  assert (Hperm : Permutation l' (sortDescByUpdatedAt l'))
    by (symmetry; apply sortDescByUpdatedAt_Permutation).
  assert (Hin : In updated l').
  { apply list_elem_of_In, list_elem_of_lookup. exists idx.
    apply list_lookup_insert_eq. eapply lookup_lt_Some, Hl. }
  split; [destruct note; reflexivity|]. split; [|split; [|split]].
  - unfold getNote. cbn [notes]. rewrite <- (find_id_Permutation _ _ _ Hnd' Hperm).
    apply find_unique; [exact Hin | apply bool_decide_eq_true_2; reflexivity |].
    intros b Hb Hbj. apply bool_decide_eq_true_1 in Hbj.
    apply (NoDup_map_eq id l'); assumption.
  - intros j Hj. unfold getNote. cbn [notes].
    rewrite <- (find_id_Permutation _ _ _ Hnd' Hperm).
    apply (find_insert_other _ _ _ old); [exact Hl | |];
      apply bool_decide_eq_false_2; simpl; congruence.
  - rewrite <- (Permutation_length Hperm). apply length_insert.
  - eapply Permutation_NoDup; [apply Permutation_map, Hperm | exact Hnd'].
Qed.

(** X12. When no two notes of the collection share an id and the
    collection holds the id of the argument, [updateNote] succeeds, the
    note it returns is the argument with the current time as [updatedAt],
    [getNote] with that id returns it afterwards, [getNote] with any
    other id returns what it returned before, and the number of notes is
    unchanged. *)
Theorem updateNote_getNote (now : Z) (note old : Note) (s : State) :
  List.NoDup (map id (notes s)) -> getNote (id note) s = Some old ->
  exists updated s',
    updateNote now note s = (inr updated, s')
    /\ updated = with_updatedAt (toISOString now) note
    /\ getNote (id note) s' = Some updated
    /\ (forall j, j <> id note -> getNote j s' = getNote j s)
    /\ length (notes s') = length (notes s).
Proof.
  intros Hnd Hold.
  destruct (updateNote_unique now note old s Hnd Hold)
    as (updated & s' & Hrun & Hu & Hg & Hother & Hlen & _).
  exists updated, s'. auto.
Qed.

(** X13. The ids stay distinct: when no two notes of the collection share
    an id, none do after [updateNote] and after [deleteNote], nor after
    [createNote] when the generated id is new to the collection. *)
Theorem ids_stay_unique (now : Z) (e : Entropy) (payload : Payload) (note : Note)
    (i : string) (s : State) :
  List.NoDup (map id (notes s)) ->
  ((forall n, In n (notes s) -> id n <> generateId e) ->
   List.NoDup (map id (notes (snd (createNote now e payload s)))))
  /\ List.NoDup (map id (notes (snd (updateNote now note s))))
  /\ List.NoDup (map id (notes (snd (deleteNote i s)))).
Proof.
  intros Hnd. split; [|split].
  - intros Hfresh. rewrite createNote_run. cbn [snd notes].
    eapply Permutation_NoDup;
      [apply Permutation_map; symmetry; apply sortDescByUpdatedAt_Permutation|].
    simpl. constructor; [|exact Hnd].
    intros Hin. apply in_map_iff in Hin as (n & Hn & Hin). exact (Hfresh n Hin Hn).
  - destruct (getNote (id note) s) as [old|] eqn:Hg.
    + destruct (updateNote_unique now note old s Hnd Hg)
        as (u & s' & -> & _ & _ & _ & _ & Hnd').
      exact Hnd'.
    + rewrite updateNote_missing by assumption. exact Hnd.
  - destruct (deleteNote_run i s) as [w' ->]. cbn [snd notes].
    apply NoDup_map_filter, Hnd.
Qed.

(** X14. [deleteNote] does not throw; afterwards [getNote] with the
    deleted id returns nothing, [getNote] with any other id returns what
    it returned before, and deleting the same id again changes nothing. *)
Theorem deleteNote_removes (i : string) (s : State) :
  exists s',
    deleteNote i s = (inr tt, s')
    /\ getNote i s' = None
    /\ (forall j, j <> i -> getNote j s' = getNote j s)
    /\ deleteNote i s' = (inr tt, s').
Proof.
  destruct (deleteNote_run i s) as [w' Hrun]. eexists. split; [exact Hrun|].
  cbn [notes]. split; [|split].
  - unfold getNote. cbn [notes].
    apply (find_filter_none (fun n => bool_decide (id n = i))).
  - intros j Hj. unfold getNote. cbn [notes]. apply find_filter_other.
    intros a Ha. apply bool_decide_eq_true_1 in Ha.
    rewrite bool_decide_eq_false_2 by congruence. reflexivity.
  - unfold deleteNote, bind, get_notes, set_notes, ret. cbn [notes world].
    rewrite filter_all.
    + rewrite Nat.eqb_refl. reflexivity.
    + intros n Hn. apply filter_In in Hn as [_ Hn]. exact Hn.
Qed.

Lemma persist_mirrors (s : State) (ls : Storage) :
  world s = GlobalThis (Present ls) -> working ls -> quota ls = None ->
  (forall l, exists p, JSON_stringify (encode_notes l) = inr p) ->
  mirrored {| notes := notes s;
              world := snd (StorageService.write storageKey (encode_notes (notes s))
                                                 (world s)) |}.
Proof.
  intros Hws Hw Hq Hstr. destruct (Hstr (notes s)) as [p Hp].
  rewrite Hws, (write_working _ p); try assumption.
  - eexists _, p. cbn [world notes snd]. split; [reflexivity|]. split; [exact Hp|].
    apply lookup_insert_eq.
  - unfold over_quota. rewrite Hq. reflexivity.
Qed.

(** X15. On a store that answers and has no quota, and a runtime that
    serializes every collection, each mutation leaves the store holding
    the JSON text of the collection in memory: [createNote], an
    [updateNote] that finds its note, and a [deleteNote] that removes
    one. *)
Theorem mutations_mirror (now : Z) (e : Entropy) (payload : Payload) (note old : Note)
    (i : string) (s : State) (ls : Storage) :
  world s = GlobalThis (Present ls) -> working ls -> quota ls = None ->
  (forall l, exists p, JSON_stringify (encode_notes l) = inr p) ->
  mirrored (snd (createNote now e payload s))
  /\ (getNote (id note) s = Some old -> mirrored (snd (updateNote now note s)))
  /\ (getNote i s <> None -> mirrored (snd (deleteNote i s))).
Proof.
  intros Hws Hw Hq Hstr. split; [|split].
  - rewrite createNote_run. cbn [snd].
    match goal with |- mirrored {| notes := ?l; world := _ |} =>
      exact (persist_mirrors {| notes := l; world := world s |} ls Hws Hw Hq Hstr) end.
  - intros Hold. unfold getNote in Hold.
    apply findIndex_find in Hold as (idx & Hidx & _).
    rewrite (updateNote_run _ _ _ _ Hidx). cbn [snd].
    match goal with |- mirrored {| notes := ?l; world := _ |} =>
      exact (persist_mirrors {| notes := l; world := world s |} ls Hws Hw Hq Hstr) end.
  - intros Hfound. unfold deleteNote, bind, get_notes, set_notes, ret. cbn beta iota.
    apply (filter_length_find (fun n => bool_decide (id n = i))) in Hfound.
    apply Nat.eqb_neq in Hfound. cbn [notes world]. rewrite Hfound. cbn [negb].
    rewrite persist_run. cbn [snd notes world].
    match goal with |- mirrored {| notes := ?l; world := _ |} =>
      exact (persist_mirrors {| notes := l; world := world s |} ls Hws Hw Hq Hstr) end.
Qed.

(** X16. The result of [listNotes(query)] depends on the query only
    through [query.toLowerCase().trim()]: two queries that agree there,
    such as " TIP " and "tip", list the same notes in the same order. *)
Theorem listNotes_query_normal (q1 q2 : string) (s : State) :
  trim (toLowerCase q1) = trim (toLowerCase q2) ->
  listNotes (Some q1) s = listNotes (Some q2) s.
Proof.
  intros Heq.
  assert (Hrun : forall q, listNotes (Some q) s
            = if truthy (trim (toLowerCase q))
              then List.filter (matches (trim (toLowerCase q))) (listNotes None s)
              else listNotes None s).
  { intros q. unfold listNotes. destruct q as [|c q]; [reflexivity|].
    simpl negb. cbn iota. destruct (truthy (trim _)); reflexivity. }
  rewrite !Hrun, Heq. reflexivity.
Qed.

End MoreRepository.

(** ** The ids *)

Section IdFacts.
Import Note NotesService.

Lemma decimal_inv (z : Z) :
  option_map Z.of_int (NilZero.int_of_string (Json.decimal z)) = Some z.
Proof.
  unfold Json.decimal.
  assert (Hd : forall d, option_map Z.of_int (NilZero.int_of_string (NilZero.string_of_int d))
                         = Some (Z.of_int d)).
  { intros d. destruct (Decimal.int_eq_dec d (Decimal.Pos Decimal.Nil)) as [-> | Hp];
      [reflexivity|].
    destruct (Decimal.int_eq_dec d (Decimal.Neg Decimal.Nil)) as [-> | Hn]; [reflexivity|].
    rewrite NilZero.isi by assumption. reflexivity. }
  rewrite Hd, DecimalZ.of_to. reflexivity.
Qed.

Lemma decimal_injective (z1 z2 : Z) : Json.decimal z1 = Json.decimal z2 -> z1 = z2.
Proof.
  intros Heq. pose proof (decimal_inv z1) as H1. rewrite Heq, decimal_inv in H1.
  congruence.
Qed.

Lemma string_of_uint_no_dash (d : Decimal.uint) : no_dash (NilEmpty.string_of_uint d) = true.
Proof. induction d; simpl; auto. Qed.

Lemma decimal_no_dash (z : Z) : 0 <= z -> no_dash (Json.decimal z) = true.
Proof.
  intros Hz. unfold Json.decimal. destruct z as [|p|p]; [reflexivity | | lia].
  simpl. destruct (Pos.to_uint p); try reflexivity; apply string_of_uint_no_dash.
Qed.

(** Two strings cut at their first dash. *)
Lemma dash_split (s1 s2 r1 r2 : string) :
  no_dash s1 = true -> no_dash s2 = true ->
  s1 +:+ "-" +:+ r1 = s2 +:+ "-" +:+ r2 -> s1 = s2 /\ r1 = r2.
Proof.
  revert s2. induction s1 as [|c s1 IH]; intros [|c2 s2]; simpl; intros H1 H2 Heq.
  - change (String "-" r1 = String "-" r2) in Heq. injection Heq as Heq. auto.
  - change (String "-" r1 = String c2 (s2 +:+ "-" +:+ r2)) in Heq. injection Heq as Hc _.
    subst c2. discriminate H2.
  - change (String c (s1 +:+ "-" +:+ r1) = String "-" r2) in Heq. injection Heq as Hc _.
    subst c. discriminate H1.
  - change (String c (s1 +:+ "-" +:+ r1) = String c2 (s2 +:+ "-" +:+ r2)) in Heq.
    injection Heq as Hc Heq. subst c2.
    apply andb_true_iff in H1 as [_ H1]. apply andb_true_iff in H2 as [_ H2].
    destruct (IH s2 H1 H2 Heq) as [-> ->]. auto.
Qed.

(** X17. For clock readings that are not negative, [generateId] gives
    equal ids only for equal readings: two ids that differ in the clock
    reading or in the random characters are different strings. *)
Theorem generateId_injective (e1 e2 : Entropy) :
  0 <= clock e1 -> 0 <= clock e2 ->
  generateId e1 = generateId e2 -> e1 = e2.
Proof.
  intros H1 H2 Heq. unfold generateId in Heq.
  apply dash_split in Heq as [Hc Hr]; try (apply decimal_no_dash; assumption).
  apply decimal_injective in Hc. destruct e1, e2; simpl in *; congruence.
Qed.

End IdFacts.

(** ** The list component *)

Section ListComponentFacts.
Import Note NotesListComponent.

Lemma substring_0_length (n : nat) (s : string) :
  (n <= String.length s)%nat -> String.length (String.substring 0 n s) = n.
Proof.
  revert s. induction n as [|n IH]; intros [|c s]; simpl; intros Hn; try reflexivity; try lia.
  f_equal. apply IH. lia.
Qed.

Lemma substring_0_prefix (n : nat) (s : string) :
  exists post, s = String.substring 0 n s +:+ post.
Proof.
  revert s. induction n as [|n IH]; intros [|c s]; simpl.
  - exists "". reflexivity.
  - exists (String c s). reflexivity.
  - exists "". reflexivity.
  - destruct (IH s) as [post Hp]. exists post. rewrite app_cons, <- Hp. reflexivity.
Qed.

Lemma string_length_app (s t : string) :
  String.length (s +:+ t) = (String.length s + String.length t)%nat.
Proof. induction s as [|c s IH]; [reflexivity|]. rewrite app_cons. simpl. rewrite IH. reflexivity. Qed.

(** X18. The snippet of a note is its trimmed content when that has at
    most 80 characters, and otherwise the first 80 characters of the
    trimmed content followed by the ellipsis: it is never longer than 80
    characters and the ellipsis. *)
Theorem snippet_bounds (ellipsis : string) (note : Note) :
  (String.length (snippet ellipsis note) <= 80 + String.length ellipsis)%nat
  /\ ((String.length (trim (content note)) <= 80)%nat ->
      snippet ellipsis note = trim (content note))
  /\ ((80 < String.length (trim (content note)))%nat ->
      exists head rest,
        trim (content note) = head +:+ rest
        /\ String.length head = 80%nat
        /\ snippet ellipsis note = head +:+ ellipsis).
Proof.
  unfold snippet. set (text := trim (content note)).
  destruct (truthy text) eqn:Ht; simpl.
  - destruct (80 <? String.length text)%nat eqn:Hlen.
    + apply Nat.ltb_lt in Hlen. split; [|split].
      * rewrite string_length_app, substring_0_length by lia. lia.
      * lia.
      * intros _. destruct (substring_0_prefix 80 text) as [post Hp].
        exists (String.substring 0 80 text), post.
        split; [exact Hp|]. split; [apply substring_0_length; lia | reflexivity].
    + apply Nat.ltb_ge in Hlen. split; [lia|]. split; [reflexivity | lia].
  - apply negb_false_iff, bool_decide_eq_true in Ht. rewrite Ht. simpl.
    split; [lia|]. split; [reflexivity | lia].
Qed.

Lemma after_spec (p s rest : string) : after p s = Some rest <-> s = p +:+ rest.
Proof.
  revert s. induction p as [|a p IH]; intros s; simpl.
  - rewrite app_nil_l. split; [intros [= ->]; reflexivity | intros ->; reflexivity].
  - destruct s as [|b s]; [split; discriminate|].
    rewrite app_cons. destruct (bool_decide (a = b)) eqn:Hab.
    + apply bool_decide_eq_true_1 in Hab. subst b. rewrite IH.
      split; [intros ->; reflexivity | intros [= ->]; reflexivity].
    + apply bool_decide_eq_false_1 in Hab. split; [discriminate | intros [= Hb _]; congruence].
Qed.

Lemma span_id_chars (s : string) : all_id_chars (span_id s).
Proof.
  unfold all_id_chars. induction s as [|c s IH]; simpl; [constructor|].
  destruct (id_char c) eqn:Hc; simpl; constructor; assumption.
Qed.

Lemma span_id_prefix (s : string) : exists post, s = span_id s +:+ post.
Proof.
  induction s as [|c s IH]; simpl; [exists ""; reflexivity|].
  destruct (id_char c); [|exists (String c s); reflexivity].
  destruct IH as [post Hp]. exists post. rewrite app_cons, <- Hp. reflexivity.
Qed.

Lemma span_id_all (i rest : string) :
  all_id_chars i -> span_id rest = "" -> span_id (i +:+ rest) = i.
Proof.
  unfold all_id_chars. induction i as [|c i IH]; simpl; intros Hi Hr.
  - rewrite ?app_nil_l. exact Hr.
  - rewrite ?app_cons. simpl. inversion Hi as [|? ? Hc Hi']; subst. rewrite Hc.
    f_equal. apply IH; assumption.
Qed.

Lemma match_notes_sound (url g : string) :
  match_notes url = Some g ->
  g <> "" /\ all_id_chars g /\ substring_of ("/notes/" +:+ g) url.
Proof.
  induction url as [|c url IH].
  - simpl. unfold match_here. simpl. discriminate.
  - simpl match_notes. destruct (match_here (String c url)) as [g'|] eqn:Hh.
    + intros [= ->]. unfold match_here in Hh.
      destruct (after "/notes/" (String c url)) as [rest|] eqn:Ha; [|discriminate].
      destruct (truthy (span_id rest)) eqn:Ht; [|discriminate]. injection Hh as <-.
      apply after_spec in Ha. split; [apply truthy_spec, Ht|].
      split; [apply span_id_chars|].
      destruct (span_id_prefix rest) as [post Hp].
      exists "", post. rewrite app_nil_l, Ha. rewrite Hp at 1.
      clear. generalize (span_id rest). intros g. reflexivity.
    + intros Hm. destruct (IH Hm) as (Hne & Hc & pre & post & Hs).
      split; [exact Hne|]. split; [exact Hc|].
      exists (String c pre), post. rewrite app_cons, <- Hs. reflexivity.
Qed.

(** X19. The id that [updateActiveFromUrl] makes active is never empty
    and never "new", holds no slash and no question mark, and follows
    "/notes/" in the url; and for a url that is "/notes/" and an id of
    such characters, followed by nothing or by a slash or a question
    mark, the active id is that id, or none when the id is "new". *)
Theorem updateActiveFromUrl_spec (url : string) :
  (forall i, updateActiveFromUrl url = Some i ->
             i <> "" /\ i <> "new" /\ all_id_chars i /\ substring_of ("/notes/" +:+ i) url)
  /\ (forall i rest,
        url = "/notes/" +:+ i +:+ rest ->
        i <> "" -> all_id_chars i -> span_id rest = "" ->
        updateActiveFromUrl url = if bool_decide (i = "new") then None else Some i).
Proof.
  split.
  - intros i. unfold updateActiveFromUrl.
    destruct (match_notes url) as [g|] eqn:Hm; [|discriminate].
    destruct (bool_decide (g = "new")) eqn:Hn; simpl; [discriminate|].
    intros [= ->]. apply bool_decide_eq_false_1 in Hn.
    destruct (match_notes_sound _ _ Hm) as (Hne & Hc & Hs). auto.
  - intros i rest -> Hne Hc Hr. unfold updateActiveFromUrl.
    assert (Hm : match_notes ("/notes/" +:+ i +:+ rest) = Some i).
    { change ("/notes/" +:+ i +:+ rest) with (String "/" ("notes/" +:+ i +:+ rest)).
      simpl match_notes. unfold match_here.
      change (String "/" ("notes/" +:+ i +:+ rest)) with ("/notes/" +:+ (i +:+ rest)).
      rewrite (proj2 (after_spec "/notes/" _ (i +:+ rest)) eq_refl).
      cbn zeta. rewrite (span_id_all i rest Hc Hr), (truthy_true i Hne). reflexivity. }
    rewrite Hm. destruct (bool_decide (i = "new")); reflexivity.
Qed.

(** X20. On a list that is not empty, the keys ArrowDown, ArrowUp, Home
    and End do not throw and leave [focusedIndex] inside the list, at the
    item they focus, whatever the index they start from; ArrowDown stops
    at the last item and ArrowUp at the first; none of them navigates. *)
Theorem onItemKeydown_in_range (key : string) (index : Z) (notes : list Note) (v : View) :
  notes <> [] ->
  key = "ArrowDown" \/ key = "ArrowUp" \/ key = "Home" \/ key = "End" ->
  exists v',
    onItemKeydown key index notes v = (inr tt, v')
    /\ 0 <= focusedIndex v' < Z.of_nat (length notes)
    /\ focused v' = focusedIndex v' :: focused v
    /\ navigated v' = navigated v
    /\ (key = "ArrowDown" -> 0 <= index < Z.of_nat (length notes) - 1 ->
        focusedIndex v' = index + 1)
    /\ (key = "ArrowDown" -> Z.of_nat (length notes) - 1 <= index ->
        focusedIndex v' = Z.of_nat (length notes) - 1)
    /\ (key = "ArrowUp" -> 0 < index < Z.of_nat (length notes) ->
        focusedIndex v' = index - 1)
    /\ (key = "ArrowUp" -> index <= 0 -> focusedIndex v' = 0).
Proof.
  intros Hne Hkey. unfold onItemKeydown.
  destruct notes as [|n notes]; [contradiction|].
  set (len := length (n :: notes)). assert (Hlen : 0 < Z.of_nat len) by (unfold len; simpl; lia).
  destruct Hkey as [-> | [-> | [-> | ->]]]; simpl bool_decide; cbn iota;
    eexists; (split; [reflexivity|]); unfold move, clamp; cbn [focusedIndex focused navigated];
    repeat split; try discriminate; try lia.
Qed.
End ListComponentFacts.

(** ** The editor component *)

Section EditorFacts.
Context `{Platform}.
Import Note NotesService NoteEditorComponent.
#[local] Arguments sortDescByUpdatedAt : simpl never.

Lemma form_invalid_spec (ed : Editor) :
  form_invalid ed = true
  <-> form_title ed = "" \/ (120 < String.length (form_title ed))%nat.
Proof.
  unfold form_invalid, required_error, maxlength_error.
  rewrite orb_true_iff, Nat.eqb_eq, Nat.ltb_lt.
  destruct (form_title ed); simpl; split; intros [Hl | Hr]; auto; discriminate.
Qed.

Lemma form_valid_spec (ed : Editor) :
  form_title ed <> "" -> (String.length (form_title ed) <= 120)%nat ->
  form_invalid ed = false.
Proof.
  intros Hne Hlen. destruct (form_invalid ed) eqn:Hf; [|reflexivity].
  apply form_invalid_spec in Hf as [Hf | Hf]; [contradiction | lia].
Qed.

Lemma onSave_valid (now : Z) (e : Entropy) (ed : Editor) (s : State) :
  form_invalid ed = false ->
  onSave now e ed s
  = let ed0 := set_error "" ed in
    if isCreateMode ed then
      match createNote now e
              {| payload_title := trim (form_title ed);
                 payload_content := Some (trim (form_content ed));
                 payload_tags := None |} s with
      | (inr created, s') =>
          (navigate ["/notes"; id created] (set_status "Note created successfully." ed0), s')
      | (inl err, s') =>
          (set_error (message_of err "An unexpected error occurred while saving the note.") ed0,
           s')
      end
    else
      match noteId ed with
      | Some i =>
          if negb (truthy i) then (set_error "Missing note ID. Unable to update." ed0, s)
          else
            match getNote i s with
            | None => (set_error "Note not found. It may have been deleted." ed0, s)
            | Some existing =>
                match updateNote now
                        (with_text (trim (form_title ed)) (trim (form_content ed)) existing)
                        s with
                | (inr _, s') => (set_status "Note updated." ed0, s')
                | (inl err, s') =>
                    (set_error
                       (message_of err "An unexpected error occurred while saving the note.")
                       ed0, s')
                end
            end
      | None => (set_error "Missing note ID. Unable to update." ed0, s)
      end.
Proof.
  intros Hvalid. unfold onSave.
  change (form_invalid (set_error "" ed)) with (form_invalid ed). rewrite Hvalid.
  reflexivity.
Qed.

(** X21. In edit mode, with a valid form and a note id that the
    repository holds, Save succeeds: the note stored keeps the id, the
    [createdAt] and the tags of the note stored before, takes the trimmed
    title and content of the form and the current time as [updatedAt];
    no error is shown and the editor does not navigate. *)
Theorem onSave_edit (now : Z) (e : Entropy) (ed : Editor) (s : State) (i : string)
    (existing : Note) :
  isCreateMode ed = false -> noteId ed = Some i -> i <> "" ->
  form_invalid ed = false -> getNote i s = Some existing ->
  exists updated ed' s',
    onSave now e ed s = (ed', s')
    /\ errorMessage ed' = "" /\ statusMessage ed' = "Note updated."
    /\ navigated ed' = navigated ed
    /\ In updated (notes s')
    /\ id updated = id existing
    /\ createdAt updated = createdAt existing
    /\ tags updated = tags existing
    /\ title updated = trim (form_title ed)
    /\ content updated = trim (form_content ed)
    /\ updatedAt updated = toISOString now.
Proof.
  intros Hmode Hid Hne Hvalid Hget. rewrite (onSave_valid _ _ _ _ Hvalid). cbv zeta.
  rewrite Hmode, Hid, (truthy_true i Hne). cbn [negb]. rewrite Hget.
  assert (Hi : id existing = i).
  { unfold getNote in Hget. apply find_some in Hget as [_ Hi].
    apply bool_decide_eq_true_1 in Hi. exact Hi. }
  unfold getNote in Hget. rewrite <- Hi in Hget.
  apply findIndex_find in Hget as (idx & Hidx & Hl & _).
  set (arg := with_text (trim (form_title ed)) (trim (form_content ed)) existing).
  rewrite (updateNote_run now arg s idx Hidx). cbv zeta.
  exists (with_updatedAt (toISOString now) (spread (notes s !! idx) arg)).
  eexists _, _. split; [reflexivity|]. cbn [notes].
  repeat (split; [reflexivity|]). split; [|repeat split].
  apply sortDescByUpdatedAt_In, list_elem_of_In, list_elem_of_lookup.
  exists idx. apply list_lookup_insert_eq. eapply lookup_lt_Some, Hl.
Qed.

(** X22. With a title that is empty or longer than 120 characters, Save
    stops at the validation: it shows the validation error, marks the
    form as touched, calls no operation of the repository and does not
    navigate; the state of the repository and of the store is what it
    was, and [titleErrorMsg] reports an error for the same forms. *)
Theorem onSave_invalid (now : Z) (e : Entropy) (ed : Editor) (s : State) :
  form_title ed = "" \/ (120 < String.length (form_title ed))%nat ->
  exists ed',
    onSave now e ed s = (ed', s)
    /\ errorMessage ed' = "Please fix validation errors before saving."
    /\ form_touched ed' = true
    /\ navigated ed' = navigated ed
    /\ titleErrorMsg ed <> None.
Proof.
  intros Hbad. apply form_invalid_spec in Hbad. unfold onSave.
  change (form_invalid (set_error "" ed)) with (form_invalid ed). rewrite Hbad.
  eexists. split; [reflexivity|]. repeat (split; [reflexivity|]).
  unfold titleErrorMsg. unfold form_invalid in Hbad.
  destruct (required_error (form_title ed)); [discriminate|].
  simpl in Hbad. rewrite Hbad. discriminate.
Qed.

(** X23. In create mode with a valid form, Save creates a note with the
    trimmed title and content of the form and no tags, under the
    generated id, reports the success and navigates to the route of the
    new note. *)
Theorem onSave_create (now : Z) (e : Entropy) (ed : Editor) (s : State) :
  isCreateMode ed = true -> form_invalid ed = false ->
  exists created ed' s',
    onSave now e ed s = (ed', s')
    /\ In created (notes s')
    /\ id created = generateId e
    /\ title created = trim (form_title ed)
    /\ content created = trim (form_content ed)
    /\ tags created = []
    /\ errorMessage ed' = "" /\ statusMessage ed' = "Note created successfully."
    /\ navigated ed' = ["/notes"; generateId e] :: navigated ed.
Proof.
  intros Hmode Hvalid. rewrite (onSave_valid _ _ _ _ Hvalid). cbv zeta.
  rewrite Hmode, createNote_run. cbv zeta.
  eexists _, _, _. split; [reflexivity|]. cbn [notes].
  split; [apply sortDescByUpdatedAt_In; left; reflexivity|].
  repeat (split; [reflexivity|]). reflexivity.
Qed.

(** X24. A title made of whitespace only passes the validation of the
    form: in create mode Save then stores a note whose title is empty,
    and that note is one that [sanitizeNotes] drops when the collection
    is loaded again. *)
Theorem onSave_blank_title (now : Z) (e : Entropy) (ed : Editor) (s : State) :
  isCreateMode ed = true ->
  form_title ed <> "" -> all_ws (form_title ed) ->
  (String.length (form_title ed) <= 120)%nat ->
  exists created ed' s',
    onSave now e ed s = (ed', s')
    /\ statusMessage ed' = "Note created successfully."
    /\ In created (notes s')
    /\ title created = ""
    /\ sanitizeNote (encode_note created) = None.
Proof.
  intros Hmode Hne Hws Hlen.
  rewrite (onSave_valid _ _ _ _ (form_valid_spec _ Hne Hlen)). cbv zeta.
  rewrite Hmode, createNote_run. cbv zeta.
  eexists _, _, _. split; [reflexivity|]. cbn [notes].
  split; [reflexivity|].
  split; [apply sortDescByUpdatedAt_In; left; reflexivity|].
  split; [apply trim_all_ws, Hws|].
  rewrite sanitizeNote_encode_complete. unfold is_complete. cbn [id title].
  rewrite (trim_all_ws _ Hws). simpl. rewrite andb_false_r. reflexivity.
Qed.

(** X25. Delete with a note id: when the dialog is declined nothing
    changes, in the editor and in the repository; when it is confirmed
    the note is gone from the repository, every other note is found as
    before, the success is reported and the editor navigates to the
    list. *)
Theorem onDelete_spec (ed : Editor) (s : State) (i : string) :
  noteId ed = Some i -> i <> "" ->
  onDelete false ed s = (ed, s)
  /\ exists ed' s',
      onDelete true ed s = (ed', s')
      /\ getNote i s' = None
      /\ (forall j, j <> i -> getNote j s' = getNote j s)
      /\ statusMessage ed' = "Note deleted."
      /\ navigated ed' = ["/notes"] :: navigated ed.
Proof.
  intros Hid Hne. unfold onDelete. rewrite Hid, (truthy_true i Hne). cbn [negb].
  split; [reflexivity|].
  destruct (deleteNote_run i s) as [w' ->].
  eexists _, _. split; [reflexivity|]. split; [|split; [|split; reflexivity]].
  - unfold getNote. cbn [notes].
    apply (find_filter_none (fun n => bool_decide (id n = i))).
  - intros j Hj. unfold getNote. cbn [notes]. apply find_filter_other.
    intros a Ha. apply bool_decide_eq_true_1 in Ha.
    rewrite bool_decide_eq_false_2 by congruence. reflexivity.
Qed.

(** X26. Opening the route of a note that the repository holds loads the
    note into the editor, its title and content into the form; Save right
    after, when that title is valid, stores the note with its id, its
    [createdAt] and its tags, and with its title and content trimmed. *)
Theorem open_then_save (now : Z) (e : Entropy) (ed : Editor) (s : State) (i : string)
    (found : Note) :
  i <> "" -> i <> "new" -> getNote i s = Some found ->
  title found <> "" -> (String.length (title found) <= 120)%nat ->
  let opened := onParams (Some i) ed s in
  isCreateMode opened = false /\ note opened = Some found
  /\ form_title opened = title found /\ form_content opened = content found
  /\ exists updated ed' s',
      onSave now e opened s = (ed', s')
      /\ statusMessage ed' = "Note updated."
      /\ In updated (notes s')
      /\ id updated = i
      /\ createdAt updated = createdAt found
      /\ tags updated = tags found
      /\ title updated = trim (title found)
      /\ content updated = trim (content found).
Proof.
  intros Hne Hnew Hget Ht Hlen opened.
  assert (Hopen : opened
            = {| isCreateMode := false; noteId := Some i; note := Some found;
                 statusMessage := "Editing note titled " +:+ or_else (title found) "Untitled" +:+ ".";
                 errorMessage := errorMessage ed;
                 form_title := title found; form_content := content found;
                 form_touched := form_touched ed; navigated := navigated ed |}).
  { unfold opened, onParams. rewrite (truthy_true i Hne).
    rewrite bool_decide_eq_false_2 by assumption. cbn [negb orb]. rewrite Hget. reflexivity. }
  rewrite Hopen. cbn [isCreateMode note form_title form_content].
  repeat (split; [reflexivity|]).
  match goal with |- context [onSave now e ?o s] => set (o' := o) end.
  assert (Hvalid : form_invalid o' = false) by (apply form_valid_spec; assumption).
  rewrite (onSave_valid _ _ _ _ Hvalid). cbv zeta.
  cbn [isCreateMode noteId form_title form_content o'].
  rewrite (truthy_true i Hne). cbn [negb]. rewrite Hget.
  assert (Hi : id found = i).
  { unfold getNote in Hget. apply find_some in Hget as [_ Hi].
    apply bool_decide_eq_true_1 in Hi. exact Hi. }
  unfold getNote in Hget. rewrite <- Hi in Hget.
  apply findIndex_find in Hget as (idx & Hidx & Hl & _).
  set (arg := with_text (trim (title found)) (trim (content found)) found).
  rewrite (updateNote_run now arg s idx Hidx). cbv zeta.
  exists (with_updatedAt (toISOString now) (spread (notes s !! idx) arg)).
  eexists _, _. split; [reflexivity|]. cbn [notes].
  split; [reflexivity|]. split; [|repeat split; assumption].
  apply sortDescByUpdatedAt_In, list_elem_of_In, list_elem_of_lookup.
  exists idx. apply list_lookup_insert_eq. eapply lookup_lt_Some, Hl.
Qed.

(** X27. On the route of an id that the repository does not hold, the
    editor reports that the note could not be found, and Save changes
    nothing in the repository, whatever the form holds. *)
Theorem open_unknown (now : Z) (e : Entropy) (ed : Editor) (s : State) (i : string) :
  i <> "" -> i <> "new" -> getNote i s = None ->
  let opened := onParams (Some i) ed s in
  errorMessage opened = "The requested note could not be found."
  /\ forall title content,
      let typed := {| isCreateMode := isCreateMode opened; noteId := noteId opened;
                      note := note opened; statusMessage := statusMessage opened;
                      errorMessage := errorMessage opened;
                      form_title := title; form_content := content;
                      form_touched := true; navigated := navigated opened |} in
      snd (onSave now e typed s) = s
      /\ errorMessage (fst (onSave now e typed s)) <> "".
Proof.
  intros Hne Hnew Hget opened.
  assert (Hopen : opened
            = {| isCreateMode := false; noteId := Some i; note := None;
                 statusMessage := statusMessage ed;
                 errorMessage := "The requested note could not be found.";
                 form_title := form_title ed; form_content := form_content ed;
                 form_touched := form_touched ed; navigated := navigated ed |}).
  { unfold opened, onParams. rewrite (truthy_true i Hne).
    rewrite bool_decide_eq_false_2 by assumption. cbn [negb orb]. rewrite Hget. reflexivity. }
  rewrite Hopen. split; [reflexivity|]. intros title content typed.
  destruct (form_invalid typed) eqn:Hf.
  - unfold onSave. change (form_invalid (set_error "" typed)) with (form_invalid typed).
    rewrite Hf. split; [reflexivity | discriminate].
  - rewrite (onSave_valid _ _ _ _ Hf). cbv zeta. cbn [isCreateMode noteId typed].
    rewrite (truthy_true i Hne). cbn [negb]. rewrite Hget. split; [reflexivity | discriminate].
Qed.

End EditorFacts.

(** ** The properties above on sample data *)

Section MoreWitnesses.
Import Note NotesService Sample Sample2.
#[local] Existing Instance Reference.platform.

Lemma seeded_ordered : ordered seeded.
Proof.
  split; [apply dated_forallb; vm_compute; reflexivity|].
  assert (Hs : notes seeded = sortDescByUpdatedAt (notes seeded)) by (vm_compute; reflexivity).
  rewrite Hs. apply sortDescByUpdatedAt_Sorted. apply dated_forallb. vm_compute. reflexivity.
Defined.

Lemma clock_ok_sample : clock_ok (t0 + 300000).
Proof. split; [vm_compute; discriminate | vm_compute; reflexivity]. Defined.

Lemma not_after_forallb (now : Z) (l : list Note) :
  forallb (fun n => match timestamp n with Some t => t <=? now | None => true end) l = true ->
  not_after now l.
Proof.
  rewrite forallb_forall. intros Hall n t Hn Ht. specialize (Hall n Hn).
  rewrite Ht in Hall. apply Z.leb_le in Hall. exact Hall.
Defined.

Lemma seeded_not_after : not_after (t0 + 300000) (notes seeded).
Proof. apply not_after_forallb. vm_compute. reflexivity. Defined.

Lemma seeded_fresh : forall n, In n (notes seeded) -> id n <> generateId e3.
Proof.
  intros n Hn. assert (Hall : forallb (fun n => negb (bool_decide (id n = generateId e3)))
                                (notes seeded) = true) by (vm_compute; reflexivity).
  rewrite forallb_forall in Hall. specialize (Hall n Hn).
  apply negb_true_iff, bool_decide_eq_false in Hall. exact Hall.
Defined.

Lemma seeded_NoDup : List.NoDup (map id (notes seeded)).
Proof.
  assert (Hd : bool_decide (NoDup (map id (notes seeded))) = true) by (vm_compute; reflexivity).
  apply bool_decide_eq_true_1 in Hd. apply NoDup_ListNoDup. exact Hd.
Defined.

Lemma seeded_world : world seeded = GlobalThis (Present seeded_storage).
Proof. vm_compute. reflexivity. Defined.

Lemma seeded_tips : getNote "1700000000000-0zt41m" seeded = Some tips.
Proof. vm_compute. reflexivity. Defined.

(** X1 on the note "Shopping", written to an empty store. *)
Lemma write_read_roundtrip_witness :
  working (local_storage ∅)
  /\ JSON_stringify (encode_notes [shopping])
     = inr (Reference.stringify (encode_notes [shopping]))
  /\ JSON_parse (Reference.stringify (encode_notes [shopping])) = inr (encode_notes [shopping])
  /\ exists w1 w2,
      StorageService.write storageKey (encode_notes [shopping]) (browser ∅) = (inr tt, w1)
      /\ StorageService.read storageKey w1 = (inr (encode_notes [shopping]), w2)
      /\ stored w2 = <[storageKey := Reference.stringify (encode_notes [shopping])]> ∅.
Proof.
  assert (Hw : working (local_storage ∅)) by (repeat split).
  assert (Hp : JSON_stringify (encode_notes [shopping])
               = inr (Reference.stringify (encode_notes [shopping]))) by reflexivity.
  assert (Hq : over_quota (Reference.stringify (encode_notes [shopping])) (local_storage ∅)
               = false) by reflexivity.
  assert (Hr : JSON_parse (Reference.stringify (encode_notes [shopping]))
               = inr (encode_notes [shopping])) by (vm_compute; reflexivity).
  split; [exact Hw|]. split; [exact Hp|]. split; [exact Hr|].
  exact (write_read_roundtrip storageKey _ _ (local_storage ∅) Hw Hp Hq Hr).
Defined.

(** X2 on the store of the seeded state. *)
Lemma remove_read_witness :
  working seeded_storage /\ has_removeItem seeded_storage = true
  /\ exists w1 w2,
      StorageService.remove storageKey (GlobalThis (Present seeded_storage)) = (inr tt, w1)
      /\ StorageService.read storageKey w1 = (inr JNull, w2)
      /\ stored w2 = delete storageKey (items seeded_storage).
Proof.
  assert (Hw : working seeded_storage) by (repeat split).
  assert (Hr : has_removeItem seeded_storage = true) by reflexivity.
  split; [exact Hw|]. split; [exact Hr|].
  exact (remove_read storageKey seeded_storage Hw Hr).
Defined.

(** X4 on a store that denies every call. *)
Lemma constructor_fallback_witness :
  store_unavailable (GlobalThis (Present locked_storage))
  /\ exists s,
      NotesService.new t0 e1 e2 (GlobalThis (Present locked_storage)) = (inr tt, s)
      /\ notes s = seedNotes t0 e1 e2
      /\ Permutation (map title (notes s)) ["Welcome to Notes"; "Tips"].
Proof.
  assert (Hu : store_unavailable (GlobalThis (Present locked_storage))).
  { intros (_ & _ & Hf). discriminate Hf. }
  split; [exact Hu|].
  exact (constructor_fallback t0 e1 e2 _ (or_introl Hu)).
Defined.


(** X6 on the seed notes. *)
Lemma operations_keep_order_witness :
  clock_ok (t0 + 300000) /\ ordered seeded
  /\ ordered (snd (createNote (t0 + 300000) e3 untitled seeded))
  /\ ordered (snd (updateNote (t0 + 300000) shopping seeded))
  /\ ordered (snd (deleteNote (id tips) seeded)).
Proof.
  split; [exact clock_ok_sample|]. split; [exact seeded_ordered|].
  exact (operations_keep_order (t0 + 300000) e3 untitled shopping (id tips) seeded
           clock_ok_sample seeded_ordered).
Defined.

(** X7 on the seed notes. *)
Lemma listNotes_ordered_witness :
  ordered seeded /\ listNotes None seeded = notes seeded.
Proof. split; [exact seeded_ordered | exact (listNotes_ordered seeded seeded_ordered)]. Defined.

(** X8 on four notes, two of them stamped at the same millisecond. *)
Lemma sort_stable_witness :
  Forall dated with_ties
  /\ List.filter (has_timestamp t_tie) (sortDescByUpdatedAt with_ties)
     = List.filter (has_timestamp t_tie) with_ties.
Proof.
  assert (Hd : Forall dated with_ties) by (apply dated_forallb; vm_compute; reflexivity).
  split; [exact Hd | exact (sort_stable t_tie with_ties Hd)].
Defined.

(** X10 on the seed notes, five minutes after they were made. *)
Lemma createNote_on_top_witness :
  clock_ok (t0 + 300000) /\ ordered seeded /\ not_after (t0 + 300000) (notes seeded)
  /\ exists note s',
      createNote (t0 + 300000) e3 untitled seeded = (inr note, s')
      /\ notes s' = note :: notes seeded
      /\ listNotes None s' = note :: listNotes None seeded.
Proof.
  split; [exact clock_ok_sample|]. split; [exact seeded_ordered|].
  split; [exact seeded_not_after|].
  exact (createNote_on_top (t0 + 300000) e3 untitled seeded
           clock_ok_sample seeded_ordered seeded_not_after).
Defined.

(** X12 on the note "Shopping" and its edit. *)
Lemma updateNote_getNote_witness :
  List.NoDup (map id (notes one_note))
  /\ getNote (id shopping_edit) one_note = Some shopping
  /\ exists updated s',
      updateNote (t0 + 60000) shopping_edit one_note = (inr updated, s')
      /\ updated = with_updatedAt (toISOString (t0 + 60000)) shopping_edit
      /\ getNote (id shopping_edit) s' = Some updated
      /\ (forall j, j <> id shopping_edit -> getNote j s' = getNote j one_note)
      /\ length (notes s') = length (notes one_note).
Proof.
  assert (Hd : List.NoDup (map id (notes one_note))).
  { apply List.NoDup_cons; [intros [] | apply List.NoDup_nil]. }
  split; [exact Hd|]. split; [reflexivity|].
  exact (updateNote_getNote (t0 + 60000) shopping_edit shopping one_note Hd eq_refl).
Defined.

(** X13 on the seed notes. *)
Lemma ids_stay_unique_witness :
  List.NoDup (map id (notes seeded))
  /\ (forall n, In n (notes seeded) -> id n <> generateId e3)
  /\ List.NoDup (map id (notes (snd (createNote (t0 + 300000) e3 untitled seeded))))
  /\ List.NoDup (map id (notes (snd (updateNote (t0 + 300000) tips seeded))))
  /\ List.NoDup (map id (notes (snd (deleteNote (id tips) seeded)))).
Proof.
  split; [exact seeded_NoDup|]. split; [exact seeded_fresh|].
  destruct (ids_stay_unique (t0 + 300000) e3 untitled tips (id tips) seeded seeded_NoDup)
    as (Hc & Hu & Hx).
  split; [exact (Hc seeded_fresh)|]. split; [exact Hu | exact Hx].
Defined.

(** X15 on the seed notes. *)
Lemma mutations_mirror_witness :
  world seeded = GlobalThis (Present seeded_storage)
  /\ working seeded_storage /\ quota seeded_storage = None
  /\ getNote (id tips) seeded = Some tips
  /\ mirrored (snd (createNote (t0 + 300000) e3 untitled seeded))
  /\ mirrored (snd (updateNote (t0 + 300000) tips seeded))
  /\ mirrored (snd (deleteNote (id tips) seeded)).
Proof.
  assert (Hw : working seeded_storage) by (repeat split).
  assert (Hq : quota seeded_storage = None) by reflexivity.
  assert (Ht : forall l, exists p, JSON_stringify (encode_notes l) = inr p)
    by (intros l; eexists; reflexivity).
  assert (Hg : getNote (id tips) seeded = Some tips) by (vm_compute; reflexivity).
  split; [exact seeded_world|]. split; [exact Hw|]. split; [exact Hq|]. split; [exact Hg|].
  destruct (mutations_mirror (t0 + 300000) e3 untitled tips tips (id tips) seeded
              seeded_storage seeded_world Hw Hq Ht) as (Hc & Hu & Hx).
  split; [exact Hc|]. split; [exact (Hu Hg)|].
  apply Hx. rewrite Hg. discriminate.
Defined.

(** X17 on one reading of the clock and of the random source. *)
Lemma generateId_injective_witness :
  0 <= clock e3 /\ generateId e3 = "1700000300000-b7w2hc" /\ e3 = e3.
Proof.
  assert (Hc : 0 <= clock e3) by (vm_compute; discriminate).
  split; [exact Hc|]. split; [vm_compute; reflexivity|].
  exact (generateId_injective e3 e3 Hc Hc eq_refl).
Defined.

(** X16 on the queries " TIP " and "tip". *)
Lemma listNotes_query_normal_witness :
  trim (toLowerCase " TIP ") = trim (toLowerCase "tip")
  /\ listNotes (Some " TIP ") seeded = listNotes (Some "tip") seeded.
Proof.
  assert (Hq : trim (toLowerCase " TIP ") = trim (toLowerCase "tip"))
    by (vm_compute; reflexivity).
  split; [exact Hq | exact (listNotes_query_normal " TIP " "tip" seeded Hq)].
Defined.

(** X11 on the seed notes. *)
Lemma createNote_deleteNote_witness :
  clock_ok (t0 + 300000) /\ ordered seeded /\ not_after (t0 + 300000) (notes seeded)
  /\ (forall n, In n (notes seeded) -> id n <> generateId e3)
  /\ exists note s1 s2,
      createNote (t0 + 300000) e3 untitled seeded = (inr note, s1)
      /\ deleteNote (id note) s1 = (inr tt, s2)
      /\ notes s2 = notes seeded.
Proof.
  split; [exact clock_ok_sample|]. split; [exact seeded_ordered|].
  split; [exact seeded_not_after|]. split; [exact seeded_fresh|].
  exact (createNote_deleteNote (t0 + 300000) e3 untitled seeded
           clock_ok_sample seeded_ordered seeded_not_after seeded_fresh).
Defined.

(** X19 on the url of a note, with a query string. *)
Lemma updateActiveFromUrl_spec_witness :
  all_id_chars "1700000000000-0zt41m"
  /\ NotesListComponent.updateActiveFromUrl "/notes/1700000000000-0zt41m?tab=1"
     = Some "1700000000000-0zt41m".
Proof.
  assert (Hc : all_id_chars "1700000000000-0zt41m").
  { unfold all_id_chars. apply List.Forall_forall. intros c Hc.
    assert (Hall : forallb NotesListComponent.id_char
                     (list_ascii_of_string "1700000000000-0zt41m") = true)
      by (vm_compute; reflexivity).
    rewrite forallb_forall in Hall. exact (Hall c Hc). }
  split; [exact Hc|].
  assert (Hne : "1700000000000-0zt41m" <> "") by discriminate.
  exact (proj2 (updateActiveFromUrl_spec "/notes/1700000000000-0zt41m?tab=1")
           "1700000000000-0zt41m" "?tab=1" eq_refl Hne Hc eq_refl).
Defined.

(** X20 on a list of four notes: ArrowDown from the second item. *)
Lemma onItemKeydown_in_range_witness :
  with_ties <> []
  /\ exists v',
      NotesListComponent.onItemKeydown "ArrowDown" 1 with_ties idle_view = (inr tt, v')
      /\ NotesListComponent.focusedIndex v' = 2.
Proof.
  assert (Hne : with_ties <> []) by discriminate.
  split; [exact Hne|].
  destruct (onItemKeydown_in_range "ArrowDown" 1 with_ties idle_view Hne (or_introl eq_refl))
    as (v' & Hrun & _ & _ & _ & Hdown & _).
  exists v'. split; [exact Hrun|].
  apply (Hdown eq_refl). simpl. lia.
Defined.

(** X21 on the seed note "Tips", with an edited title. *)
Lemma onSave_edit_witness :
  NoteEditorComponent.isCreateMode editing = false
  /\ NoteEditorComponent.form_invalid editing = false
  /\ getNote "1700000000000-0zt41m" seeded = Some tips
  /\ exists updated ed' s',
      NoteEditorComponent.onSave (t0 + 300000) e3 editing seeded = (ed', s')
      /\ In updated (notes s')
      /\ id updated = id tips
      /\ createdAt updated = createdAt tips
      /\ title updated = "Tips and tricks".
Proof.
  assert (Hi : "1700000000000-0zt41m" <> "") by discriminate.
  assert (Hv : NoteEditorComponent.form_invalid editing = false) by reflexivity.
  split; [reflexivity|]. split; [exact Hv|]. split; [exact seeded_tips|].
  destruct (onSave_edit (t0 + 300000) e3 editing seeded "1700000000000-0zt41m" tips
              eq_refl eq_refl Hi Hv seeded_tips)
    as (updated & ed' & s' & Hrun & _ & _ & _ & Hin & Hid & Hc & _ & Ht & _).
  exists updated, ed', s'.
  split; [exact Hrun|]. split; [exact Hin|]. split; [exact Hid|]. split; [exact Hc|].
  rewrite Ht. vm_compute. reflexivity.
Defined.

(** X22 on the form of a new note with an empty title. *)
Lemma onSave_invalid_witness :
  NoteEditorComponent.form_title (creating "") = ""
  /\ exists ed',
      NoteEditorComponent.onSave (t0 + 300000) e3 (creating "") seeded = (ed', seeded)
      /\ NoteEditorComponent.errorMessage ed' = "Please fix validation errors before saving."
      /\ NoteEditorComponent.form_touched ed' = true
      /\ NoteEditorComponent.navigated ed' = NoteEditorComponent.navigated (creating "")
      /\ NoteEditorComponent.titleErrorMsg (creating "") <> None.
Proof.
  split; [reflexivity|].
  exact (onSave_invalid (t0 + 300000) e3 (creating "") seeded (or_introl eq_refl)).
Defined.

(** X23 on the form of a new note titled " Stamps ". *)
Lemma onSave_create_witness :
  NoteEditorComponent.isCreateMode (creating " Stamps ") = true
  /\ NoteEditorComponent.form_invalid (creating " Stamps ") = false
  /\ exists created ed' s',
      NoteEditorComponent.onSave (t0 + 300000) e3 (creating " Stamps ") seeded = (ed', s')
      /\ In created (notes s')
      /\ title created = "Stamps"
      /\ content created = "buy stamps"
      /\ NoteEditorComponent.navigated ed' = [["/notes"; "1700000300000-b7w2hc"]].
Proof.
  assert (Hv : NoteEditorComponent.form_invalid (creating " Stamps ") = false) by reflexivity.
  split; [reflexivity|]. split; [exact Hv|].
  destruct (onSave_create (t0 + 300000) e3 (creating " Stamps ") seeded eq_refl Hv)
    as (created & ed' & s' & Hrun & Hin & _ & Ht & Hc & _ & _ & _ & Hnav).
  exists created, ed', s'.
  split; [exact Hrun|]. split; [exact Hin|].
  split; [rewrite Ht; vm_compute; reflexivity|].
  split; [rewrite Hc; vm_compute; reflexivity|].
  rewrite Hnav. vm_compute. reflexivity.
Defined.

(** X24 on the form of a new note whose title is three spaces. *)
Lemma onSave_blank_title_witness :
  NoteEditorComponent.form_title (creating "   ") <> ""
  /\ all_ws (NoteEditorComponent.form_title (creating "   "))
  /\ exists created ed' s',
      NoteEditorComponent.onSave (t0 + 300000) e3 (creating "   ") seeded = (ed', s')
      /\ NoteEditorComponent.statusMessage ed' = "Note created successfully."
      /\ In created (notes s')
      /\ title created = ""
      /\ sanitizeNote (encode_note created) = None.
Proof.
  assert (Hne : NoteEditorComponent.form_title (creating "   ") <> "") by discriminate.
  assert (Hws : all_ws (NoteEditorComponent.form_title (creating "   ")))
    by (repeat constructor).
  assert (Hlen : (String.length (NoteEditorComponent.form_title (creating "   ")) <= 120)%nat)
    by (simpl; lia).
  split; [exact Hne|]. split; [exact Hws|].
  exact (onSave_blank_title (t0 + 300000) e3 (creating "   ") seeded eq_refl Hne Hws Hlen).
Defined.

(** X25 on the editor of the seed note "Tips". *)
Lemma onDelete_spec_witness :
  NoteEditorComponent.noteId editing = Some "1700000000000-0zt41m"
  /\ NoteEditorComponent.onDelete false editing seeded = (editing, seeded)
  /\ exists ed' s',
      NoteEditorComponent.onDelete true editing seeded = (ed', s')
      /\ getNote "1700000000000-0zt41m" s' = None
      /\ (forall j, j <> "1700000000000-0zt41m" -> getNote j s' = getNote j seeded)
      /\ NoteEditorComponent.statusMessage ed' = "Note deleted."
      /\ NoteEditorComponent.navigated ed'
         = ["/notes"] :: NoteEditorComponent.navigated editing.
Proof.
  assert (Hi : "1700000000000-0zt41m" <> "") by discriminate.
  split; [reflexivity|].
  exact (onDelete_spec editing seeded "1700000000000-0zt41m" eq_refl Hi).
Defined.

(** X26 on the route of the seed note "Tips". *)
Lemma open_then_save_witness :
  getNote "1700000000000-0zt41m" seeded = Some tips
  /\ title tips = "Tips"
  /\ exists updated ed' s',
      NoteEditorComponent.onSave (t0 + 300000) e3
        (NoteEditorComponent.onParams (Some "1700000000000-0zt41m")
           NoteEditorComponent.initial seeded) seeded = (ed', s')
      /\ NoteEditorComponent.statusMessage ed' = "Note updated."
      /\ In updated (notes s')
      /\ id updated = "1700000000000-0zt41m"
      /\ createdAt updated = createdAt tips
      /\ tags updated = tags tips
      /\ title updated = trim (title tips)
      /\ content updated = trim (content tips).
Proof.
  assert (Hi : "1700000000000-0zt41m" <> "") by discriminate.
  assert (Hn : "1700000000000-0zt41m" <> "new") by discriminate.
  assert (Ht : title tips = "Tips") by (vm_compute; reflexivity).
  assert (Hne : title tips <> "") by (rewrite Ht; discriminate).
  assert (Hlen : (String.length (title tips) <= 120)%nat) by (rewrite Ht; simpl; lia).
  split; [exact seeded_tips|]. split; [exact Ht|].
  exact (proj2 (proj2 (proj2 (proj2
           (open_then_save (t0 + 300000) e3 NoteEditorComponent.initial seeded
              "1700000000000-0zt41m" tips Hi Hn seeded_tips Hne Hlen))))).
Defined.

(** X27 on the route of a note that is not among the seed notes. *)
Lemma open_unknown_witness :
  getNote (id shopping) seeded = None
  /\ NoteEditorComponent.errorMessage
       (NoteEditorComponent.onParams (Some (id shopping)) NoteEditorComponent.initial seeded)
     = "The requested note could not be found."
  /\ forall title content,
      let typed :=
        {| NoteEditorComponent.isCreateMode := false;
           NoteEditorComponent.noteId := Some (id shopping);
           NoteEditorComponent.note := None;
           NoteEditorComponent.statusMessage := "";
           NoteEditorComponent.errorMessage := "The requested note could not be found.";
           NoteEditorComponent.form_title := title;
           NoteEditorComponent.form_content := content;
           NoteEditorComponent.form_touched := true;
           NoteEditorComponent.navigated := [] |} in
      snd (NoteEditorComponent.onSave (t0 + 300000) e3 typed seeded) = seeded.
Proof.
  assert (Hi : id shopping <> "") by discriminate.
  assert (Hn : id shopping <> "new") by discriminate.
  assert (Hg : getNote (id shopping) seeded = None) by (vm_compute; reflexivity).
  split; [exact Hg|].
  destruct (open_unknown (t0 + 300000) e3 NoteEditorComponent.initial seeded (id shopping)
              Hi Hn Hg) as (Herr & Hsave).
  split; [exact Herr|].
  intros title content typed.
  assert (Hopen : NoteEditorComponent.onParams (Some (id shopping))
                    NoteEditorComponent.initial seeded
                  = {| NoteEditorComponent.isCreateMode := false;
                       NoteEditorComponent.noteId := Some (id shopping);
                       NoteEditorComponent.note := None;
                       NoteEditorComponent.statusMessage := "";
                       NoteEditorComponent.errorMessage :=
                         "The requested note could not be found.";
                       NoteEditorComponent.form_title := "";
                       NoteEditorComponent.form_content := "";
                       NoteEditorComponent.form_touched := false;
                       NoteEditorComponent.navigated := [] |})
    by (vm_compute; reflexivity).
  specialize (Hsave title content). cbv zeta in Hsave. rewrite Hopen in Hsave.
  exact (proj1 Hsave).
Defined.

End MoreWitnesses.
